(** * gogitlocalstats: the commit-activity histogram and its calendar rendering

    A shallow embedding of the statistics half of the program
    ([processRepositories], [fillCommits], [countDaysSinceDate], [calcOffset],
    [sortMapIntoSlice], [buildCols], [printCells], [printMonths],
    [printDayCol], [printCell]) together with the properties the
    specification states about it, and of the part of the scan that works on
    values ([scanGitFolders], [recursiveScanFolder], [joinSlices],
    [sliceContains]); reading and writing the dot file is left to the
    operating system and is not modelled.

    Conventions of the embedding:
    - a Go [int] is a [Z]; the only arithmetic that can leave the 64-bit
      range is the counter increment [commits[daysAgo]++], whose wrap-around
      is written out ([wrap64]);
    - a [map[int]int] is a [gmap Z Z], a [column] (a slice of ints) a
      [list Z]; the program never writes into a stored slice again, so the
      sharing of backing arrays by [append] is not observable;
    - a [time.Time] is an instant in nanoseconds since the Unix epoch with
      the offset of its location (locations are fixed-offset zones, as the
      author times of commits are);
    - the system clock, the standard output and the two ways a run can stop
      early (a Go panic, a loop that does not end) live in a small state and
      error monad [M]; [time.Now()] consumes one reading of the clock. *)

From Stdlib Require Import ZArith Lia String Ascii List DecimalString.
From stdpp Require Import base gmap strings list sorting.

Local Open Scope Z_scope.

(** ** Time *)

Module time.

Record Time := mkTime {
  unixNano : Z;      (* the instant *)
  zoneOffset : Z     (* seconds east of UTC of the value's location *)
}.

Definition Nanosecond : Z := 1.
Definition Second : Z := 1000000000 * Nanosecond.
Definition Hour : Z := 3600 * Second.

(* wall-clock nanoseconds in the value's own location *)
Definition localNano (t : Time) : Z := unixNano t + zoneOffset t * Second.

(* number of the civil day of [t] in its location; day 0 is 1970-01-01 *)
Definition localDay (t : Time) : Z := localNano t / (24 * Hour).

Definition Before (t u : Time) : bool := unixNano t <? unixNano u.
Definition After (t u : Time) : bool := unixNano u <? unixNano t.
Definition Add (t : Time) (d : Z) : Time := mkTime (unixNano t + d) (zoneOffset t).

(* type Weekday int *)
Definition Sunday : Z := 0.
Definition Monday : Z := 1.
Definition Tuesday : Z := 2.
Definition Wednesday : Z := 3.
Definition Thursday : Z := 4.
Definition Friday : Z := 5.
Definition Saturday : Z := 6.

(* 1970-01-01 was a Thursday *)
Definition Weekday (t : Time) : Z := (localDay t + Thursday) mod 7.

(* Month of a day number, 1 = January: the civil-from-days computation
   on the proleptic Gregorian calendar, shifted to years that start on
   the first of March. *)
Definition monthOfDay (d : Z) : Z :=
  let z := d + 719468 in
  let era := z / 146097 in
  let doe := z - era * 146097 in
  let yoe := (doe - doe / 1460 + doe / 36524 - doe / 146096) / 365 in
  let doy := doe - (365 * yoe + yoe / 4 - yoe / 100) in
  let mp := (5 * doy + 2) / 153 in
  if mp <? 10 then mp + 3 else mp - 9.

Definition Month (t : Time) : Z := monthOfDay (localDay t).

Definition monthName (m : Z) : string :=
  match m with
  | 1 => "January" | 2 => "February" | 3 => "March" | 4 => "April"
  | 5 => "May" | 6 => "June" | 7 => "July" | 8 => "August"
  | 9 => "September" | 10 => "October" | 11 => "November"
  | 12 => "December"
  | _ => "%!Month(" +:+ NilZero.string_of_int (Z.to_int m) +:+ ")"
  end.

End time.

Import time.

(** ** Constants *)

Definition daysInLastSixMonths : Z := 183.
Definition outOfRange : Z := 99999.

(** Modelled from the spec: the constant [weeksInLastSixMonths] is used by
    [printCells] but its declaration is not part of the source text.  The
    specification prints [ceil((W + 7) / 7) = 28] week columns, and the loop
    of [printCells] runs over the indices [weeksInLastSixMonths + 1] down to
    [0], which are 28 columns for the value 26. *)
Definition weeksInLastSixMonths : Z := 26.

(* type column []int *)
Definition column : Type := list Z.

(** ** The monad of a run *)

Record State := mkState {
  ticks : nat;        (* readings of the system clock taken so far *)
  stdout : string     (* everything written to the standard output *)
}.

Inductive PanicValue :=
| ErrorValue (err : string)               (* panic(err) *)
| IndexOutOfRange (index length : Z).     (* runtime error of col[j] *)

Inductive Res (A : Type) :=
| Ok (a : A)
| Panic (p : PanicValue)
| Hang.                                   (* a loop ran out of the model's fuel *)
Arguments Ok {A} a.
Arguments Panic {A} p.
Arguments Hang {A}.

Definition M (A : Type) : Type := State -> Res A * State.

Definition ret {A} (a : A) : M A := fun s => (Ok a, s).

Definition bind {A B} (m : M A) (f : A -> M B) : M B :=
  fun s =>
    match m s with
    | (Ok a, s') => f a s'
    | (Panic p, s') => (Panic p, s')
    | (Hang, s') => (Hang, s')
    end.

Definition panic {A} (p : PanicValue) : M A := fun s => (Panic p, s).
Definition hang {A} : M A := fun s => (Hang, s).

Notation "x <- m ;; k" := (bind m (fun x => k))
  (at level 100, m at next level, right associativity, only parsing).
Notation "m ;;; k" := (bind m (fun _ => k))
  (at level 100, right associativity, only parsing).

(* fmt.Printf with a format that holds no verb *)
Definition printf (out : string) : M unit :=
  fun s => (Ok tt, mkState (ticks s) (stdout s +:+ out)).

(* the text of an int under the verb %d *)
Definition formatInt (v : Z) : string := NilZero.string_of_int (Z.to_int v).

(* fmt.Sprintf(format, v) for a format with at most one verb, which is %d *)
Fixpoint sprintf1 (format : string) (v : Z) : string :=
  match format with
  | EmptyString => EmptyString
  | String "%" (String "d" rest) => formatInt v +:+ rest
  | String c rest => String c (sprintf1 rest v)
  end.

Definition printf1 (format : string) (v : Z) : M unit := printf (sprintf1 format v).

(* for i := n; i >= 0; i-- { body(i) } *)
Fixpoint forDown (n : nat) (body : Z -> M unit) : M unit :=
  body (Z.of_nat n) ;;;
  match n with
  | O => ret tt
  | S n' => forDown n' body
  end.

(* the increment of a Go int *)
Definition wrap64 (z : Z) : Z := (z + 2 ^ 63) mod 2 ^ 64 - 2 ^ 63.

(* m[k] on a map[int]int: a missing key reads as 0 *)
Definition mapGet (m : gmap Z Z) (k : Z) : Z := default 0 (m !! k).

(* m[k]++ *)
Definition mapIncr (m : gmap Z Z) (k : Z) : gmap Z Z := <[k := wrap64 (mapGet m k + 1)]> m.

(* col[j]: a runtime panic outside 0 <= j < len(col) *)
Definition index (col : column) (j : Z) : M Z :=
  if (0 <=? j) && (j <? Z.of_nat (length col)) then
    match col !! Z.to_nat j with
    | Some v => ret v
    | None => panic (IndexOutOfRange j (Z.of_nat (length col)))
    end
  else panic (IndexOutOfRange j (Z.of_nat (length col))).

(** ** Commits and repositories, as go-git shows them to the program *)

Record Commit := mkCommit {
  AuthorEmail : string;     (* c.Author.Email *)
  AuthorWhen : Time         (* c.Author.When *)
}.

Inductive Repository :=
| OpenFails (err : string)        (* git.PlainOpen returns an error *)
| HeadFails (err : string)        (* repo.Head returns an error *)
| LogFails (err : string)         (* repo.Log returns an error *)
| History (cs : list Commit) (err : option string).
    (* the iterator yields [cs] and then ends, cleanly or with an error *)

(** ** The program *)

Section Program.

(* the n-th call of time.Now() returns [clock n] *)
Variable clock : nat -> Time.
(* what is found at a path *)
Variable git : string -> Repository.
(* the lines of the dot file, as parseFileLinesToSlice returns them *)
Variable repos : list string.
(* bound on the iterations of the one loop whose exit depends on the clock *)
Variable fuel : nat.

Definition timeNow : M Time :=
  fun s => (Ok (clock (ticks s)), mkState (S (ticks s)) (stdout s)).

(* t.Date() followed by time.Date(year, month, day, 0, 0, 0, 0, t.Location()):
   midnight of the civil day of [t] in the location of [t] *)
Definition getBeginningOfDay (t : Time) : Time :=
  mkTime (localDay t * (24 * Hour) - zoneOffset t * Second) (zoneOffset t).

(* the loop of countDaysSinceDate; it returns from inside once days
   exceeds daysInLastSixMonths, so daysInLastSixMonths + 1 rounds are all
   it can make *)
Fixpoint countDaysLoop (n : nat) (now date : Time) (days : Z) : option Z :=
  if Before date now then
    match n with
    | O => None
    | S n' =>
        let date := Add date (Hour * 24) in
        let days := days + 1 in
        if days >? daysInLastSixMonths then Some outOfRange
        else countDaysLoop n' now date days
    end
  else Some days.

Definition countDaysSinceDate (date : Time) : M Z :=
  t <- timeNow ;;
  let now := getBeginningOfDay t in
  match countDaysLoop (Z.to_nat (daysInLastSixMonths + 1)) now date 0 with
  | Some days => ret days
  | None => hang
  end.

Definition offsetOfWeekday (weekday : Z) : Z :=
  let offset := 0 in
  if weekday =? Sunday then 7
  else if weekday =? Monday then 6
  else if weekday =? Tuesday then 5
  else if weekday =? Wednesday then 4
  else if weekday =? Thursday then 3
  else if weekday =? Friday then 2
  else if weekday =? Saturday then 1
  else offset.

Definition calcOffset : M Z :=
  t <- timeNow ;;
  ret (offsetOfWeekday (Weekday t)).

(* the function passed to iterator.ForEach; it always returns nil *)
Definition forEachCommit (email : string) (offset : Z)
    (commits : gmap Z Z) (c : Commit) : M (gmap Z Z) :=
  days <- countDaysSinceDate (AuthorWhen c) ;;
  let daysAgo := days + offset in
  if negb (String.eqb (AuthorEmail c) email) then ret commits
  else if negb (daysAgo =? outOfRange) then ret (mapIncr commits daysAgo)
  else ret commits.

Fixpoint forEach (f : gmap Z Z -> Commit -> M (gmap Z Z))
    (cs : list Commit) (commits : gmap Z Z) : M (gmap Z Z) :=
  match cs with
  | [] => ret commits
  | c :: cs' => commits' <- f commits c ;; forEach f cs' commits'
  end.

Definition fillCommits (email path : string) (commits : gmap Z Z) : M (gmap Z Z) :=
  match git path with
  | OpenFails err => panic (ErrorValue err)
  | HeadFails err => panic (ErrorValue err)
  | LogFails err => panic (ErrorValue err)
  | History cs err =>
      offset <- calcOffset ;;
      commits <- forEach (forEachCommit email offset) cs commits ;;
      match err with
      | Some e => panic (ErrorValue e)
      | None => ret commits
      end
  end.

(* for i := daysInMap; i > 0; i-- { commits[i] = 0 } *)
Fixpoint seedLoop (i : nat) (commits : gmap Z Z) : gmap Z Z :=
  match i with
  | O => commits
  | S i' => seedLoop i' (<[Z.of_nat i := 0]> commits)
  end.

Fixpoint forRepos (email : string) (paths : list string) (commits : gmap Z Z)
    : M (gmap Z Z) :=
  match paths with
  | [] => ret commits
  | path :: paths' =>
      commits' <- fillCommits email path commits ;;
      forRepos email paths' commits'
  end.

Definition processRepositories (email : string) : M (gmap Z Z) :=
  let daysInMap := daysInLastSixMonths in
  let commits := seedLoop (Z.to_nat daysInMap) ∅ in
  forRepos email repos commits.

(** *** Rendering *)

(* the keys of the map, in ascending order (sort.Ints) *)
Definition sortMapIntoSlice (m : gmap Z Z) : list Z :=
  merge_sort Z.le (map_to_list m).*1.

(* one round of the loop of buildCols; [/] and [%] of Go truncate *)
Definition buildColsStep (commits : gmap Z Z)
    (st : gmap Z column * column) (k : Z) : gmap Z column * column :=
  let '(cols, col) := st in
  let week := Z.quot k 7 in
  let dayinweek := Z.rem k 7 in
  let col := if dayinweek =? 0 then [] else col in
  let col := col ++ [mapGet commits k] in
  let cols := if dayinweek =? 6 then <[week := col]> cols else cols in
  (cols, col).

Definition buildCols (keys : list Z) (commits : gmap Z Z) : gmap Z column :=
  fst (fold_left (buildColsStep commits) keys (∅, [])).

Definition ESC : string := String "027"%char EmptyString.
Definition newline : string := String "010"%char EmptyString.
Definition resetEscape : string := ESC +:+ "[0m".

Definition printCell (val : Z) (today : bool) : M unit :=
  let escape := ESC +:+ "[0;37;30m" in
  let escape :=
    if (val >? 0) && (val <? 5) then ESC +:+ "[1;30;47m"
    else if (val >=? 5) && (val <? 10) then ESC +:+ "[1;30;43m"
    else if val >=? 10 then ESC +:+ "[1;30;42m"
    else escape in
  let escape := if today then ESC +:+ "[1;37;45m" else escape in
  if val =? 0 then printf (escape +:+ "  - " +:+ resetEscape)
  else
    let str := "  %d " in
    let str :=
      if val >=? 10 then " %d "
      else if val >=? 100 then "%d "
      else str in
    printf1 (escape +:+ str +:+ resetEscape) val.

Definition printDayCol (day : Z) : M unit :=
  let out := "     " in
  let out :=
    match day with
    | 1 => " Mon "
    | 3 => " Wed "
    | 5 => " Fri "
    | _ => out
    end in
  printf out.

(* the body of the endless loop of printMonths, left by break *)
Fixpoint printMonthsLoop (n : nat) (week : Time) (month : Z) : M unit :=
  match n with
  | O => hang
  | S n' =>
      month' <-
        (if negb (Month week =? month) then
           printf (substring 0 3 (monthName (Month week)) +:+ " ") ;;;
           ret (Month week)
         else
           printf "    " ;;; ret month) ;;
      let week := Add week (7 * Hour * 24) in
      t <- timeNow ;;
      if After week t then ret tt
      else printMonthsLoop n' week month'
  end.

Definition printMonths : M unit :=
  t <- timeNow ;;
  let week := Add (getBeginningOfDay t) (- (daysInLastSixMonths * Hour * 24)) in
  let month := Month week in
  printf "         " ;;;
  printMonthsLoop fuel week month ;;;
  printf newline.

Definition printCells (cols : gmap Z column) : M unit :=
  printMonths ;;;
  forDown 6 (fun j =>
    forDown (Z.to_nat (weeksInLastSixMonths + 1)) (fun i =>
      (if i =? weeksInLastSixMonths + 1 then printDayCol j else ret tt) ;;;
      match cols !! i with
      | Some col =>
          today <-
            (if i =? 0 then offset <- calcOffset ;; ret (j =? offset - 1)
             else ret false) ;;
          if today then
            v <- index col j ;; printCell v true
          else if Z.of_nat (length col) >? j then
            v <- index col j ;; printCell v false
          else printCell 0 false
      | None => printCell 0 false
      end) ;;;
    printf newline).

Definition printCommitsStats (commits : gmap Z Z) : M unit :=
  let keys := sortMapIntoSlice commits in
  let cols := buildCols keys commits in
  printCells cols.

Definition stats (email : string) : M unit :=
  commits <- processRepositories email ;;
  printCommitsStats commits.

End Program.

(** ** The list of repositories *)

(* strings.HasSuffix and strings.TrimSuffix *)
Definition HasSuffix (s suffix : string) : bool :=
  (String.length suffix <=? String.length s)%nat &&
  String.eqb (substring (String.length s - String.length suffix) (String.length suffix) s)
    suffix.

Definition TrimSuffix (s suffix : string) : string :=
  if HasSuffix s suffix then substring 0 (String.length s - String.length suffix) s
  else s.

(* what os.Open and Readdir(-1) find at a folder: an error, or the entries
   of the folder; of an entry the scan looks at Name() and IsDir() *)
Inductive Dir :=
| Unreadable (err : string)
| Listing (files : list FileInfo)
with FileInfo :=
| File (name : string)                  (* IsDir() is false *)
| Folder (name : string) (below : Dir). (* IsDir() is true *)

(* a function of the scan returns, or log.Fatal ends the process *)
Inductive Exit (A : Type) :=
| Returned (a : A)
| Fatal (err : string).
Arguments Returned {A} a.
Arguments Fatal {A} err.

(* standard output before the call; the result and standard output after it *)
Definition Scan (A : Type) : Type := string -> Exit A * string.

(* the loop of scanGitFolders over the entries of a folder, [folder] being
   the path without its last slash and [scan] the recursive call *)
Definition rangeFiles (scan : list string -> string -> Dir -> Scan (list string))
    (folder : string) : list FileInfo -> list string -> Scan (list string) :=
  fix range (files : list FileInfo) (folders : list string) (out : string) :=
    match files with
    | [] => (Returned folders, out)
    | File _ :: rest => range rest folders out
    | Folder name below :: rest =>
        let path := folder +:+ "/" +:+ name in
        if String.eqb name ".git" then
          let path := TrimSuffix path "/.git" in
          range rest (folders ++ [path]) (out +:+ path +:+ newline)
        else if String.eqb name "vendor" || String.eqb name "node_modules" then
          range rest folders out
        else
          match scan folders path below out with
          | (Returned folders, out) => range rest folders out
          | (Fatal err, out) => (Fatal err, out)
          end
    end.

Fixpoint scanGitFolders (folders : list string) (folder : string) (dir : Dir)
    {struct dir} : Scan (list string) :=
  let folder := TrimSuffix folder "/" in
  match dir with
  | Unreadable err => fun out => (Fatal err, out)
  | Listing files => rangeFiles scanGitFolders folder files folders
  end.

Definition recursiveScanFolder (folder : string) (dir : Dir) : Scan (list string) :=
  scanGitFolders [] folder dir.

Fixpoint sliceContains (slice : list string) (value : string) : bool :=
  match slice with
  | [] => false
  | v :: slice' => if String.eqb v value then true else sliceContains slice' value
  end.

Fixpoint joinSlices (new existing : list string) : list string :=
  match new with
  | [] => existing
  | i :: new' =>
      joinSlices new' (if negb (sliceContains existing i) then existing ++ [i] else existing)
  end.

(** ** Auxiliary definitions of the statements *)

(* what fmt.Println writes for a list of paths, one call per path *)
Fixpoint printedLines (paths : list string) : string :=
  match paths with
  | [] => EmptyString
  | path :: paths' => (path +:+ newline) +:+ printedLines paths'
  end.

(* the outcome of a scan that found [found] and then returned, or was ended
   by log.Fatal *)
Definition scanOutcome (folders found : list string) (fatal : option string)
    (out : string) : Exit (list string) * string :=
  (match fatal with
   | None => Returned (folders ++ found)
   | Some err => Fatal err
   end, out +:+ printedLines found).

Definition day : Z := 24 * Hour.

(* t.In(loc): the same instant seen in another location *)
Definition In (t : Time) (offset : Z) : Time := mkTime (unixNano t) offset.

(** The midnights of the location of [now] that lie after the instant
    [date] and not after the start of the day of [now]: the civil days of
    that location between the two. *)
Definition dayBoundaries (now date : Time) : Z :=
  localDay now - localDay (In date (zoneOffset now)).

Definition tick (s : State) : State := mkState (S (ticks s)) (stdout s).

(* rounds the loop of countDaysSinceDate needs to bring [date] up to [now] *)
Definition roundsTo (now date : Time) : Z :=
  Z.max 0 ((unixNano now - unixNano date + day - 1) / day).

(* the histogram a run of the aggregation hands back, read at one key *)
Definition histogramKey (r : Res (gmap Z Z) * State) (k : Z) : option Z :=
  match fst r with
  | Ok h => h !! k
  | _ => None
  end.

Definition histogramOf (r : Res (gmap Z Z) * State) : gmap Z Z :=
  match fst r with
  | Ok h => h
  | _ => ∅
  end.

(* the error a repository answers with, if any *)
Definition repoError (r : Repository) : option string :=
  match r with
  | OpenFails e | HeadFails e | LogFails e => Some e
  | History _ e => e
  end.

(* the commits a repository yields before its iterator ends *)
Definition commitsOf (r : Repository) : list Commit :=
  match r with
  | History cs _ => cs
  | _ => []
  end.


(** The intensity bands of the specification and their escape sequences. *)
Inductive Band := Neutral | Low | Medium | High.

Definition bandOf (val : Z) : Band :=
  if val =? 0 then Neutral
  else if (1 <=? val) && (val <=? 4) then Low
  else if (5 <=? val) && (val <=? 9) then Medium
  else if 10 <=? val then High
  else Neutral.

Definition bandEscape (b : Band) : string :=
  match b with
  | Neutral => ESC +:+ "[0;37;30m"
  | Low => ESC +:+ "[1;30;47m"
  | Medium => ESC +:+ "[1;30;43m"
  | High => ESC +:+ "[1;30;42m"
  end.

Definition todayEscape : string := ESC +:+ "[1;37;45m".

(* what a cell shows between the escape sequences: the marker of an empty
   cell, or the number with its padding *)
Definition cellText (val : Z) : string :=
  if val =? 0 then "  - "
  else if val <? 10 then "  " +:+ formatInt val +:+ " "
  else " " +:+ formatInt val +:+ " ".

(* a text without its ANSI escape sequences (ESC up to the next m) *)
Fixpoint stripEscapes (inEscape : bool) (text : string) : string :=
  match text with
  | EmptyString => EmptyString
  | String c rest =>
      if inEscape then stripEscapes (negb (Ascii.eqb c "m")) rest
      else if Ascii.eqb c "027" then stripEscapes true rest
      else String c (stripEscapes false rest)
  end.

(* characters a cell occupies on the terminal *)
Definition cellWidth (val : Z) (today : bool) : nat :=
  String.length (stripEscapes false (stdout (snd (printCell val today (mkState 0 ""))))).

(* the sums the specification compares *)
Definition sumZ (l : list Z) : Z := foldr Z.add 0 l.
Definition histogramTotal (h : gmap Z Z) : Z := sumZ (map snd (map_to_list h)).
Definition gridTotal (g : gmap Z column) : Z :=
  sumZ (map (fun wc => sumZ (snd wc)) (map_to_list g)).

(* the grid of a histogram, as printCommitsStats builds it *)
Definition gridOf (h : gmap Z Z) : gmap Z column := buildCols (sortMapIntoSlice h) h.

(* what every histogram of the aggregation satisfies: the seeded keys 1 to
   daysInLastSixMonths are present and no key is below 1 *)
Definition seeded (h : gmap Z Z) : Prop :=
  (forall k, 1 <= k <= daysInLastSixMonths -> is_Some (h !! k)) /\
  (forall k, is_Some (h !! k) -> 1 <= k).

(* two instants of the same civil day of the same location *)
Definition sameDay (t u : Time) : Prop :=
  zoneOffset t = zoneOffset u /\ localDay t = localDay u.

(* a computation that is not stopped by the fuel of the model *)
Definition noHang {A} (m : M A) : Prop := forall s, fst (m s) <> Hang.

(* what the function passed to ForEach does to the histogram for a commit,
   seen from an instant [now] of the day on which the clock is read *)
Definition countCommit (now : Time) (email : string) (offset : Z)
    (commits : gmap Z Z) (c : Commit) : gmap Z Z :=
  let n := Z.max 0 (dayBoundaries now (AuthorWhen c)) in
  let days := if n <=? daysInLastSixMonths then n else outOfRange in
  if negb (String.eqb (AuthorEmail c) email) then commits
  else if negb (days + offset =? outOfRange) then mapIncr commits (days + offset)
  else commits.



(** *** Concrete runs used as examples *)

Module Examples.

Definition s0 : State := mkState 0 "".
Definition utc (sec : Z) : Time := mkTime (sec * Second) 0.
Definition me : string := "me@example.com".

(* Saturday 2023-07-01 12:00:00 UTC and the days after it *)
Definition saturdayNoon : Time := utc 1688212800.
Definition sundayNoon : Time := utc (1688212800 + 86400).
Definition tuesdayNoon : Time := utc (1688212800 + 3 * 86400).

Definition daysBefore (t : Time) (n : Z) : Time := Add t (- (n * day)).

(* a clock that does not move during the run *)
Definition frozen (t : Time) : nat -> Time := fun _ => t.

(* one repository holding one commit of [me] made at [t] *)
Definition oneCommit (t : Time) : string -> Repository :=
  fun _ => History [mkCommit me t] None.

Definition noRepository : string -> Repository :=
  fun _ => OpenFails "repository does not exist".

(* the histogram of a run that holds one repository with one commit of
   [me], made [n] days before the frozen instant [now] *)
Definition histogramOfCommit (now : Time) (n : Z) : gmap Z Z :=
  histogramOf (processRepositories (frozen now) (oneCommit (daysBefore now n))
                 ["repo"%string] me s0).

(* a Tuesday (offset 5) with a commit made 183 days earlier: key 188 *)
Definition tuesdayHistogram : gmap Z Z := histogramOfCommit tuesdayNoon 183.

(* Friday 2023-06-30 23:59:59 UTC, and a clock that shows this instant at
   its first reading and Saturday 00:00:01 from then on *)
Definition fridayLate : Time := utc (1688212800 - 12 * 3600 - 1).
Definition saturdayEarly : Time := utc (1688212800 - 12 * 3600 + 1).
Definition overMidnight : nat -> Time :=
  fun n => match n with O => fridayLate | S _ => saturdayEarly end.
Definition fridayNoon : Time := utc (1688212800 - 86400).

(* a clock that moves by an hour after its first reading *)
Definition anHourLater (t : Time) : nat -> Time :=
  fun n => match n with O => t | S _ => Add t Hour end.

(* a folder with a repository in app, a vendor folder that cannot be read,
   and a checkout in lib whose .git is a file *)
Definition code : Dir :=
  Listing [File "notes.txt";
           Folder "app" (Listing [Folder ".git" (Listing [File "HEAD"]);
                                  Folder "vendor" (Unreadable "permission denied");
                                  Folder "src" (Listing [File "main.go"])]);
           Folder "lib" (Listing [File ".git"; File "lib.go"])].


End Examples.

(** ** Facts about time *)

Lemma day_pos : 0 < day.
Proof. reflexivity. Qed.

Lemma beginning_le (t : Time) :
  unixNano (getBeginningOfDay t) <= unixNano t < unixNano (getBeginningOfDay t) + day.
Proof.
  unfold getBeginningOfDay, localDay; simpl. fold day.
  pose proof (Z.div_mod (localNano t) day ltac:(discriminate)) as Hdm.
  pose proof (Z.mod_pos_bound (localNano t) day day_pos) as Hb.
  unfold localNano in *. lia.
Qed.



Lemma roundsTo_done (now date : Time) :
  Before date now = false -> roundsTo now date = 0.
Proof.
  unfold Before, roundsTo. intros H%Z.ltb_ge.
  assert ((unixNano now - unixNano date + day - 1) / day <= 0); [|lia].
  assert ((unixNano now - unixNano date + day - 1) / day < 1); [|lia].
  apply Z.div_lt_upper_bound; [apply day_pos|]. lia.
Qed.

Lemma roundsTo_step (now date : Time) :
  Before date now = true ->
  roundsTo now date = roundsTo now (Add date (Hour * 24)) + 1 /\ 0 <= roundsTo now (Add date (Hour * 24)).
Proof.
  unfold Before, roundsTo, Add; simpl. intros H%Z.ltb_lt.
  replace (Hour * 24) with day by reflexivity.
  replace (unixNano now - (unixNano date + day) + day - 1)
    with (unixNano now - unixNano date + day - 1 + (-1) * day) by lia.
  rewrite Z.div_add by discriminate.
  assert (1 <= (unixNano now - unixNano date + day - 1) / day); [|lia].
  apply Z.div_le_lower_bound; [apply day_pos|]. lia.
Qed.

Lemma countDaysLoop_rounds (n : nat) (now date : Time) (days : Z) :
  0 <= days <= daysInLastSixMonths ->
  daysInLastSixMonths + 1 <= days + Z.of_nat n ->
  countDaysLoop n now date days =
    Some (if days + roundsTo now date <=? daysInLastSixMonths
          then days + roundsTo now date else outOfRange).
Proof.
  revert date days. induction n as [|n IH]; intros date days Hd Hn.
  - lia.
  - simpl countDaysLoop. destruct (Before date now) eqn:Hb.
    + destruct (roundsTo_step _ _ Hb) as [-> Hr].
      destruct (Z.gtb_spec (days + 1) daysInLastSixMonths) as [Hgt|Hle].
      * destruct (Z.leb_spec (days + (roundsTo now (Add date (Hour * 24)) + 1))
                    daysInLastSixMonths); [lia|reflexivity].
      * rewrite IH by lia. f_equal.
        replace (days + 1 + roundsTo now (Add date (Hour * 24)))
          with (days + (roundsTo now (Add date (Hour * 24)) + 1)) by lia.
        reflexivity.
    + rewrite (roundsTo_done _ _ Hb), Z.add_0_r.
      destruct (Z.leb_spec days daysInLastSixMonths); [reflexivity|lia].
Qed.

(* between the start of a day and an instant, the rounds are the day
   boundaries of the location of that day *)
Lemma roundsTo_boundaries (now date : Time) :
  roundsTo (getBeginningOfDay now) date = Z.max 0 (dayBoundaries now date).
Proof.
  unfold roundsTo, dayBoundaries, getBeginningOfDay, In, localDay, localNano; simpl.
  fold day. f_equal.
  set (L := unixNano date + zoneOffset now * Second).
  set (D := (unixNano now + zoneOffset now * Second) / day).
  replace (D * day - zoneOffset now * Second - unixNano date + day - 1)
    with ((day - 1 - L) + D * day) by (unfold L; lia).
  rewrite Z.div_add by discriminate.
  assert ((day - 1 - L) / day = - (L / day)); [|lia].
  symmetry. apply Z.div_unique with (r := day - 1 - L mod day).
  - left. pose proof (Z.mod_pos_bound L day day_pos). lia.
  - pose proof (Z.div_mod L day ltac:(discriminate)). lia.
Qed.

(** What [countDaysSinceDate] computes, for every clock and every date:
    the loop always ends within its own bound. *)
Lemma countDaysSinceDate_value (clock : nat -> Time) (date : Time) (s : State) :
  countDaysSinceDate clock date s =
    (Ok (let n := Z.max 0 (dayBoundaries (clock (ticks s)) date) in
         if n <=? daysInLastSixMonths then n else outOfRange), tick s).
Proof.
  unfold countDaysSinceDate, bind, timeNow.
  rewrite countDaysLoop_rounds by (unfold daysInLastSixMonths; lia).
  rewrite roundsTo_boundaries. reflexivity.
Qed.

Lemma calcOffset_value (clock : nat -> Time) (s : State) :
  calcOffset clock s = (Ok (offsetOfWeekday (Weekday (clock (ticks s)))), tick s).
Proof. reflexivity. Qed.

Lemma Weekday_range (t : Time) : 0 <= Weekday t <= 6.
Proof. unfold Weekday. pose proof (Z.mod_pos_bound (localDay t + Thursday) 7). lia. Qed.

Lemma offsetOfWeekday_range (w : Z) : 0 <= w <= 6 -> offsetOfWeekday w = 7 - w.
Proof.
  intros H. assert (w = 0 \/ w = 1 \/ w = 2 \/ w = 3 \/ w = 4 \/ w = 5 \/ w = 6) as Hc by lia.
  destruct Hc as [->|[->|[->|[->|[->|[->| ->]]]]]]; reflexivity.
Qed.

(** ** The alignment offset *)

(** C6: [calcOffset] maps Sunday to 7, Monday to 6, Tuesday to 5, Wednesday
    to 4, Thursday to 3, Friday to 2 and Saturday to 1; the weekday of every
    instant is one of these seven values, so the zero default of the switch
    is never returned: for every clock the call returns, and its result is
    [7 - weekday], which lies in [1,7]. *)
Theorem calcOffset_total_mapping :
  offsetOfWeekday Sunday = 7 /\ offsetOfWeekday Monday = 6 /\
  offsetOfWeekday Tuesday = 5 /\ offsetOfWeekday Wednesday = 4 /\
  offsetOfWeekday Thursday = 3 /\ offsetOfWeekday Friday = 2 /\
  offsetOfWeekday Saturday = 1 /\
  (forall t : Time, Weekday t ∈ [Sunday; Monday; Tuesday; Wednesday; Thursday; Friday; Saturday]) /\
  (forall (clock : nat -> Time) (s : State),
     exists offset : Z,
       calcOffset clock s = (Ok offset, tick s) /\
       offset = 7 - Weekday (clock (ticks s)) /\
       1 <= offset <= 7).
Proof.
  repeat (split; [reflexivity|]). split.
  - intros t. pose proof (Weekday_range t) as H.
    assert (Weekday t = 0 \/ Weekday t = 1 \/ Weekday t = 2 \/ Weekday t = 3 \/
            Weekday t = 4 \/ Weekday t = 5 \/ Weekday t = 6) as Hc by lia.
    clear H. unfold Sunday, Monday, Tuesday, Wednesday, Thursday, Friday, Saturday.
    destruct Hc as [->|[->|[->|[->|[->|[->| ->]]]]]]; set_solver.
  - intros clock s. eexists. split; [apply calcOffset_value|].
    pose proof (Weekday_range (clock (ticks s))) as H.
    rewrite offsetOfWeekday_range by exact H. lia.
Qed.

(** ** Days since a date *)



(** ** The window *)

(* the sentinel plus an offset is never the sentinel: a commit of the target
   author that is older than the window is counted, at key outOfRange + offset *)
Lemma forEachCommit_out_of_window (clock : nat -> Time) (s : State)
    (email : string) (offset : Z) (commits : gmap Z Z) (c : Commit) :
  AuthorEmail c = email ->
  1 <= offset <= 7 ->
  daysInLastSixMonths < dayBoundaries (clock (ticks s)) (AuthorWhen c) ->
  forEachCommit clock email offset commits c s =
    (Ok (mapIncr commits (outOfRange + offset)), tick s).
Proof.
  intros He Ho Hold. unfold forEachCommit, bind.
  rewrite countDaysSinceDate_value. cbv zeta.
  rewrite Z.max_r by (unfold daysInLastSixMonths in Hold; lia).
  destruct (Z.leb_spec (dayBoundaries (clock (ticks s)) (AuthorWhen c)) daysInLastSixMonths);
    [lia|].
  rewrite He, String.eqb_refl. simpl negb.
  destruct (Z.eqb_spec (outOfRange + offset) outOfRange); [lia|reflexivity].
Qed.

(** C1 (the code departs from the claim): a commit of the target author made
    200 days before a Saturday noon is older than the window, and
    [countDaysSinceDate] answers with the sentinel for it; [fillCommits]
    compares the sentinel plus the offset with the sentinel, so the commit is
    counted all the same, at key [outOfRange + 1], far above
    [daysInLastSixMonths + 7]. *)
Theorem out_of_window_commit_is_counted :
  let clock := Examples.frozen Examples.saturdayNoon in
  let old := Examples.daysBefore Examples.saturdayNoon 200 in
  fst (countDaysSinceDate clock old Examples.s0) = Ok outOfRange /\
  histogramKey
    (processRepositories clock (Examples.oneCommit old) ["repo"%string]
       Examples.me Examples.s0) (outOfRange + 1) = Some 1 /\
  daysInLastSixMonths + 7 < outOfRange + 1.
Proof. vm_compute. repeat split; reflexivity. Qed.

(** ** Failing repositories *)

Lemma forEachCommit_ok (clock : nat -> Time) (email : string) (offset : Z)
    (commits : gmap Z Z) (c : Commit) (s : State) :
  exists h, forEachCommit clock email offset commits c s = (Ok h, tick s).
Proof.
  unfold forEachCommit, bind. rewrite countDaysSinceDate_value.
  destruct (negb _); [eexists; reflexivity|].
  destruct (negb _); eexists; reflexivity.
Qed.

Lemma forEach_ok (clock : nat -> Time) (email : string) (offset : Z)
    (cs : list Commit) (commits : gmap Z Z) (s : State) :
  exists h, forEach (forEachCommit clock email offset) cs commits s =
            (Ok h, mkState (ticks s + length cs) (stdout s)).
Proof.
  revert commits s. induction cs as [|c cs IH]; intros commits s.
  - exists commits. simpl. rewrite Nat.add_0_r. destruct s; reflexivity.
  - simpl. unfold bind.
    destruct (forEachCommit_ok clock email offset commits c s) as [h ->].
    destruct (IH h (tick s)) as [h' ->]. exists h'. simpl.
    repeat f_equal. lia.
Qed.

Lemma fillCommits_readable (clock : nat -> Time) (git : string -> Repository)
    (email path : string) (commits : gmap Z Z) (s : State) :
  repoError (git path) = None ->
  exists h, fillCommits clock git email path commits s =
            (Ok h, mkState (ticks s + S (length (commitsOf (git path)))) (stdout s)).
Proof.
  unfold fillCommits. destruct (git path) as [e|e|e|cs [e|]]; try discriminate.
  intros _. unfold bind. rewrite calcOffset_value.
  destruct (forEach_ok clock email (offsetOfWeekday (Weekday (clock (ticks s)))) cs
              commits (tick s)) as [h ->].
  exists h. simpl. repeat f_equal. lia.
Qed.

Lemma fillCommits_failing (clock : nat -> Time) (git : string -> Repository)
    (email path : string) (commits : gmap Z Z) (s : State) (e : string) :
  repoError (git path) = Some e ->
  exists s', fillCommits clock git email path commits s = (Panic (ErrorValue e), s').
Proof.
  unfold fillCommits. destruct (git path) as [e'|e'|e'|cs [e'|]]; simpl;
    intros [= <-]; try (eexists; reflexivity).
  unfold bind. rewrite calcOffset_value.
  destruct (forEach_ok clock email (offsetOfWeekday (Weekday (clock (ticks s)))) cs
              commits (tick s)) as [h ->].
  eexists; reflexivity.
Qed.






(** ** Cells *)

Lemma append_assoc (a b c : string) : ((a +:+ b) +:+ c = a +:+ b +:+ c)%string.
Proof.
  induction a as [|x a IH]; [reflexivity|].
  change (String x ((a +:+ b) +:+ c) = String x (a +:+ b +:+ c)).
  f_equal. exact IH.
Qed.

(** C7: a cell of value 0 shows the empty marker in the neutral band, a
    value from 1 to 4 is in the low band, from 5 to 9 in the medium band, 10
    and more in the high band; for today's cell the highlight sequence
    stands in the place of the band's, it differs from all of them, and the
    text of the cell (the number or the empty marker) is the same. *)
Theorem printCell_bands (val : Z) (today : bool) (s : State) :
  0 <= val ->
  printCell val today s =
    (Ok tt, mkState (ticks s)
              (stdout s +:+ ((if today then todayEscape else bandEscape (bandOf val))
                             +:+ cellText val +:+ resetEscape))) /\
  (val = 0 -> bandOf val = Neutral /\ cellText val = "  - "%string) /\
  (1 <= val <= 4 -> bandOf val = Low) /\
  (5 <= val <= 9 -> bandOf val = Medium) /\
  (10 <= val -> bandOf val = High) /\
  (forall b : Band, bandEscape b <> todayEscape).
Proof.
  intros Hval. split; [|split; [|split; [|split; [|split]]]].
  - unfold printCell, bandOf, cellText, printf1, printf.
    destruct (Z.eqb_spec val 0) as [->|Hz].
    + destruct today; reflexivity.
    + destruct (Z.gtb_spec val 0); [|lia].
      destruct (Z.leb_spec 1 val); [|lia].
      destruct (Z.ltb_spec val 5), (Z.leb_spec val 4); try lia; simpl andb.
      { destruct (Z.geb_spec val 10), (Z.ltb_spec val 10), (Z.geb_spec val 100); try lia.
        rewrite !append_assoc. destruct today; reflexivity. }
      destruct (Z.geb_spec val 5), (Z.leb_spec 5 val); try lia.
      destruct (Z.ltb_spec val 10), (Z.leb_spec val 9); try lia; simpl andb.
      { destruct (Z.geb_spec val 10), (Z.geb_spec val 100); try lia.
        rewrite !append_assoc. destruct today; reflexivity. }
      destruct (Z.geb_spec val 10), (Z.leb_spec 10 val); try lia.
      rewrite !append_assoc. destruct today; reflexivity.
  - intros ->. split; reflexivity.
  - intros H. unfold bandOf.
    destruct (Z.eqb_spec val 0); [lia|].
    destruct (Z.leb_spec 1 val), (Z.leb_spec val 4); try lia. reflexivity.
  - intros H. unfold bandOf.
    destruct (Z.eqb_spec val 0); [lia|].
    destruct (Z.leb_spec 1 val), (Z.leb_spec val 4), (Z.leb_spec 5 val), (Z.leb_spec val 9);
      try lia; reflexivity.
  - intros H. unfold bandOf.
    destruct (Z.eqb_spec val 0); [lia|].
    destruct (Z.leb_spec 1 val), (Z.leb_spec val 4), (Z.leb_spec 5 val), (Z.leb_spec val 9),
      (Z.leb_spec 10 val); try lia; reflexivity.
  - intros b. destruct b; discriminate.
Qed.

Lemma printCell_bands_witness :
  printCell 7 true Examples.s0 =
    (Ok tt, mkState 0 (todayEscape +:+ "  7 " +:+ resetEscape)) /\
  printCell 7 false Examples.s0 =
    (Ok tt, mkState 0 (bandEscape Medium +:+ "  7 " +:+ resetEscape)).
Proof.
  split.
  - apply (proj1 (printCell_bands 7 true Examples.s0 ltac:(discriminate))).
  - apply (proj1 (printCell_bands 7 false Examples.s0 ltac:(discriminate))).
Defined.

(** C8 (the code departs from the claim): every value from 0 to 99 is
    printed on four characters, but the case [val >= 100] of the switch that
    chooses the format stands after the case [val >= 10] and is never
    taken, so 100 is printed with the two-digit format on five characters:
    a row that holds it is not aligned. *)
Theorem printCell_width_of_three_digits :
  forallb (fun v => Nat.eqb (cellWidth v false) 4) (seqZ 0 100) = true /\
  cellWidth 100 false = 5%nat /\
  stdout (snd (printCell 100 false Examples.s0)) =
    (bandEscape High +:+ " 100 " +:+ resetEscape)%string.
Proof. vm_compute. repeat split; reflexivity. Qed.

(** ** The fold into columns *)

(** C3 (the code departs from the claim): [buildCols] stores a column only
    when it reaches weekday position 6 and has no store after the loop.  A
    commit made 182 days before a Saturday is counted at key 183; the keys
    182 and 183 form a trailing group that never reaches position 6, so the
    grid holds no column 26 and its total is 0 while the histogram's is 1. *)
Theorem buildCols_drops_trailing_group :
  let h := Examples.histogramOfCommit Examples.saturdayNoon 182 in
  h !! 183 = Some 1 /\
  histogramTotal h = 1 /\
  gridOf h !! 26 = None /\
  gridTotal (gridOf h) = 0.
Proof. vm_compute. repeat split; reflexivity. Qed.

(** ** Today's cell *)

(** C4 (the code departs from the claim): the week-0 column of a reachable
    grid has six elements; on a Sunday the offset is 7 and the today branch
    of [printCells] reads [col[6]] without the length check of its sibling
    branch, so the rendering stops with an index-out-of-range panic in its
    first row.  On a Saturday the same input is rendered to the end. *)
Theorem printCells_panics_on_sunday :
  let h := histogramOf (processRepositories (Examples.frozen Examples.sundayNoon)
                          Examples.noRepository [] Examples.me Examples.s0) in
  length <$> (gridOf h !! 0) = Some 6%nat /\
  fst (calcOffset (Examples.frozen Examples.sundayNoon) Examples.s0) = Ok 7 /\
  fst (stats (Examples.frozen Examples.sundayNoon) Examples.noRepository [] 27
         Examples.me Examples.s0) = Panic (IndexOutOfRange 6 6) /\
  fst (stats (Examples.frozen Examples.saturdayNoon) Examples.noRepository [] 27
         Examples.me Examples.s0) = Ok tt.
Proof. vm_compute. repeat split; reflexivity. Qed.

(** ** The histograms of the aggregation *)

Lemma seedLoop_lookup (n : nat) (m : gmap Z Z) (k : Z) :
  seedLoop n m !! k = if decide (1 <= k <= Z.of_nat n) then Some 0 else m !! k.
Proof.
  revert m. induction n as [|n IH]; intros m.
  - simpl. case_decide; [lia|reflexivity].
  - simpl seedLoop. rewrite IH.
    destruct (decide (k = Z.of_nat (S n))) as [->|Hne].
    + rewrite lookup_insert_eq. repeat case_decide; try lia; reflexivity.
    + rewrite lookup_insert_ne by congruence.
      repeat case_decide; try lia; reflexivity.
Qed.

Lemma seeded_seedLoop : seeded (seedLoop (Z.to_nat daysInLastSixMonths) ∅).
Proof.
  split; intros k; rewrite seedLoop_lookup.
  - intros Hk. rewrite decide_True; [eauto|].
    unfold daysInLastSixMonths in *. lia.
  - case_decide; [lia|]. rewrite lookup_empty. intros [? [=]].
Qed.

Lemma seeded_mapIncr (h : gmap Z Z) (k : Z) : 1 <= k -> seeded h -> seeded (mapIncr h k).
Proof.
  intros Hk [Hin Hlow]. unfold mapIncr. split; intros j.
  - intros Hj. destruct (decide (k = j)) as [->|Hne].
    + rewrite lookup_insert_eq. eauto.
    + rewrite lookup_insert_ne by exact Hne. auto.
  - destruct (decide (k = j)) as [->|Hne]; [intros _; exact Hk|].
    rewrite lookup_insert_ne by exact Hne. auto.
Qed.

Lemma seeded_forEachCommit (clock : nat -> Time) (email : string) (offset : Z)
    (commits : gmap Z Z) (c : Commit) (s s' : State) (h : gmap Z Z) :
  1 <= offset -> seeded commits ->
  forEachCommit clock email offset commits c s = (Ok h, s') -> seeded h.
Proof.
  intros Ho Hs. unfold forEachCommit, bind. rewrite countDaysSinceDate_value.
  cbv zeta. set (n := Z.max 0 _).
  destruct (negb (String.eqb _ _)); [intros [= <- _]; exact Hs|].
  destruct (negb _); intros [= <- _]; [|exact Hs].
  apply seeded_mapIncr; [|exact Hs].
  destruct (n <=? daysInLastSixMonths); unfold outOfRange; lia.
Qed.

Lemma seeded_forEach (clock : nat -> Time) (email : string) (offset : Z)
    (cs : list Commit) (commits : gmap Z Z) (s s' : State) (h : gmap Z Z) :
  1 <= offset -> seeded commits ->
  forEach (forEachCommit clock email offset) cs commits s = (Ok h, s') -> seeded h.
Proof.
  intros Ho. revert commits s. induction cs as [|c cs IH]; intros commits s Hs.
  - intros [= <- _]. exact Hs.
  - simpl. unfold bind.
    destruct (forEachCommit clock email offset commits c s) as [[h1| |] s1] eqn:E;
      try discriminate.
    apply IH. eapply seeded_forEachCommit; eassumption.
Qed.

Lemma seeded_fillCommits (clock : nat -> Time) (git : string -> Repository)
    (email path : string) (commits : gmap Z Z) (s s' : State) (h : gmap Z Z) :
  seeded commits ->
  fillCommits clock git email path commits s = (Ok h, s') -> seeded h.
Proof.
  intros Hs. unfold fillCommits. destruct (git path) as [e|e|e|cs err]; try discriminate.
  unfold bind. rewrite calcOffset_value.
  destruct (forEach _ cs commits (tick s)) as [[h1| |] s1] eqn:E; try discriminate.
  destruct err; [discriminate|]. intros [= <- _].
  eapply seeded_forEach; [|exact Hs|exact E].
  pose proof (Weekday_range (clock (ticks s))) as Hw.
  rewrite offsetOfWeekday_range by exact Hw. lia.
Qed.

Lemma seeded_processRepositories (clock : nat -> Time) (git : string -> Repository)
    (repos : list string) (email : string) (s : State) (h : gmap Z Z) :
  fst (processRepositories clock git repos email s) = Ok h -> seeded h.
Proof.
  unfold processRepositories. cbv zeta.
  generalize seeded_seedLoop. generalize (seedLoop (Z.to_nat daysInLastSixMonths) ∅).
  revert s. induction repos as [|path repos IH]; intros s commits Hs.
  - intros [= <-]. exact Hs.
  - simpl. unfold bind.
    destruct (fillCommits clock git email path commits s) as [[h1| |] s1] eqn:E;
      try discriminate.
    apply IH. eapply seeded_fillCommits; eassumption.
Qed.

(** ** The sorted keys *)

Lemma elem_of_sortMapIntoSlice (m : gmap Z Z) (k : Z) :
  k ∈ sortMapIntoSlice m <-> is_Some (m !! k).
Proof.
  unfold sortMapIntoSlice. rewrite merge_sort_Permutation, list_elem_of_fmap. split.
  - intros [[i x] [-> Hin]]. apply elem_of_map_to_list in Hin. simpl. eauto.
  - intros [x Hx]. exists (k, x). split; [reflexivity|].
    apply elem_of_map_to_list. exact Hx.
Qed.

Lemma Sorted_sortMapIntoSlice (m : gmap Z Z) : Sorted Z.le (sortMapIntoSlice m).
Proof. apply (Sorted_merge_sort Z.le). Qed.

Lemma NoDup_sortMapIntoSlice (m : gmap Z Z) : NoDup (sortMapIntoSlice m).
Proof.
  unfold sortMapIntoSlice. rewrite merge_sort_Permutation. apply NoDup_fst_map_to_list.
Qed.

(* a sorted list without repetition that holds every number of an interval
   and nothing below it starts with that interval *)
Lemma sorted_starts_with_interval (n : nat) (a : Z) (l : list Z) :
  Sorted Z.le l -> NoDup l ->
  (forall k, k ∈ l -> a <= k) ->
  (forall k, a <= k < a + Z.of_nat n -> k ∈ l) ->
  exists rest, l = seqZ a (Z.of_nat n) ++ rest /\ Forall (fun k => a + Z.of_nat n <= k) rest.
Proof.
  revert a l. induction n as [|n IH]; intros a l Hsort Hnd Hlow Hin.
  - exists l. split; [reflexivity|]. apply Forall_forall. intros k Hk.
    specialize (Hlow k Hk). lia.
  - destruct l as [|x l].
    { exfalso. apply (not_elem_of_nil a). apply Hin. lia. }
    apply Sorted_StronglySorted in Hsort; [|intros ???; lia].
    inversion Hsort as [|? ? Hsort' Hx]; subst.
    apply NoDup_cons in Hnd as [Hnx Hnd].
    rewrite Forall_forall in Hx.
    assert (x = a) as ->.
    { assert (a <= x) by (apply Hlow; left).
      assert (a ∈ x :: l) as Ha by (apply Hin; lia).
      apply elem_of_cons in Ha as [->|Ha]; [reflexivity|].
      specialize (Hx a Ha). lia. }
    destruct (IH (a + 1) l) as [rest [-> Hrest]].
    + apply StronglySorted_Sorted. exact Hsort'.
    + exact Hnd.
    + intros k Hk. specialize (Hx k Hk).
      assert (k <> a) by (intros ->; contradiction). lia.
    + intros k Hk. assert (k ∈ a :: l) as Hk' by (apply Hin; lia).
      apply elem_of_cons in Hk' as [->|Hk']; [lia|exact Hk'].
    + exists rest. split.
      * rewrite (seqZ_cons a (Z.of_nat (S n))) by lia.
        replace (Z.pred (Z.of_nat (S n))) with (Z.of_nat n) by lia.
        replace (Z.succ a) with (a + 1) by lia. reflexivity.
      * eapply Forall_impl; [exact Hrest|]. intros k Hk. simpl in Hk. lia.
Qed.

Lemma sortMapIntoSlice_seeded (h : gmap Z Z) :
  seeded h ->
  exists rest, sortMapIntoSlice h = seqZ 1 daysInLastSixMonths ++ rest /\
               Forall (fun k => daysInLastSixMonths < k) rest.
Proof.
  intros [Hin Hlow].
  destruct (sorted_starts_with_interval (Z.to_nat daysInLastSixMonths) 1
              (sortMapIntoSlice h)) as [rest [E Hrest]].
  - apply Sorted_sortMapIntoSlice.
  - apply NoDup_sortMapIntoSlice.
  - intros k Hk. apply Hlow, elem_of_sortMapIntoSlice, Hk.
  - intros k Hk. apply elem_of_sortMapIntoSlice, Hin.
    unfold daysInLastSixMonths in *. lia.
  - exists rest. split; [exact E|].
    eapply Forall_impl; [exact Hrest|]. intros k Hk. simpl in Hk.
    unfold daysInLastSixMonths in *. lia.
Qed.

(** ** The columns of an aggregated histogram *)

Lemma quot_rem_week (u i : Z) :
  0 <= u -> 0 <= i < 7 -> Z.quot (7 * u + i) 7 = u /\ Z.rem (7 * u + i) 7 = i.
Proof.
  intros Hu Hi. rewrite Z.quot_div_nonneg, Z.rem_mod_nonneg by lia.
  replace (7 * u + i) with (i + u * 7) by lia.
  rewrite Z.div_add, Z.mod_add by lia.
  rewrite Z.div_small, Z.mod_small by lia. lia.
Qed.

Lemma buildColsStep_week (h : gmap Z Z) (cols : gmap Z column) (col : column) (u i : Z) :
  0 <= u -> 0 <= i < 7 ->
  buildColsStep h (cols, col) (7 * u + i) =
    (if i =? 6 then <[u := (if i =? 0 then [] else col) ++ [mapGet h (7 * u + i)]]> cols
     else cols,
     (if i =? 0 then [] else col) ++ [mapGet h (7 * u + i)]).
Proof.
  intros Hu Hi. unfold buildColsStep.
  destruct (quot_rem_week u i Hu Hi) as [-> ->]. reflexivity.
Qed.

Lemma seqZ_7 (a : Z) : seqZ a 7 = [a + 0; a + 1; a + 2; a + 3; a + 4; a + 5; a + 6].
Proof. unfold seqZ. simpl. repeat (apply (f_equal2 cons); [lia|]). reflexivity. Qed.

(* a whole week of keys stores its column, whatever came before *)
Lemma buildCols_fold_week (h : gmap Z Z) (cols : gmap Z column) (col : column) (u : Z) :
  0 <= u ->
  fold_left (buildColsStep h) (seqZ (7 * u) 7) (cols, col) =
    let week := [mapGet h (7 * u + 0); mapGet h (7 * u + 1); mapGet h (7 * u + 2);
                 mapGet h (7 * u + 3); mapGet h (7 * u + 4); mapGet h (7 * u + 5);
                 mapGet h (7 * u + 6)] in
    (<[u := week]> cols, week).
Proof.
  intros Hu. rewrite seqZ_7. cbn [fold_left].
  rewrite !buildColsStep_week by lia. reflexivity.
Qed.

(* keys of other weeks leave a stored column alone *)
Lemma buildCols_fold_frame (h : gmap Z Z) (keys : list Z)
    (st : gmap Z column * column) (u : Z) :
  (forall k, k ∈ keys -> Z.quot k 7 <> u) ->
  (fold_left (buildColsStep h) keys st).1 !! u = st.1 !! u.
Proof.
  revert st. induction keys as [|k keys IH]; intros [cols col] Hk; [reflexivity|].
  cbn [fold_left]. rewrite IH by (intros j Hj; apply Hk; right; exact Hj).
  unfold buildColsStep. destruct (Z.rem k 7 =? 6); [|reflexivity].
  simpl. apply lookup_insert_ne. apply Hk. left.
Qed.

Lemma quot_above (u k : Z) : 0 <= u -> 7 * u + 7 <= k -> Z.quot k 7 <> u.
Proof.
  intros Hu Hk. rewrite Z.quot_div_nonneg by lia.
  assert (u + 1 <= k / 7); [|lia]. apply Z.div_le_lower_bound; lia.
Qed.

Lemma gridOf_week_zero (h : gmap Z Z) :
  seeded h ->
  gridOf h !! 0 =
    Some [mapGet h 1; mapGet h 2; mapGet h 3; mapGet h 4; mapGet h 5; mapGet h 6].
Proof.
  intros Hs. destruct (sortMapIntoSlice_seeded h Hs) as [rest [E Hrest]].
  unfold gridOf, buildCols. rewrite E.
  replace daysInLastSixMonths with (6 + 177) by reflexivity.
  rewrite seqZ_app by lia. rewrite <- app_assoc, fold_left_app.
  rewrite buildCols_fold_frame.
  - reflexivity.
  - intros k Hk. apply (quot_above 0); [lia|].
    apply elem_of_app in Hk as [Hk|Hk].
    + apply elem_of_seqZ in Hk. lia.
    + rewrite Forall_forall in Hrest. specialize (Hrest k Hk).
      unfold daysInLastSixMonths in Hrest. lia.
Qed.

Lemma gridOf_full_week (h : gmap Z Z) (w : Z) :
  seeded h -> 1 <= w <= 25 ->
  gridOf h !! w =
    Some [mapGet h (7 * w + 0); mapGet h (7 * w + 1); mapGet h (7 * w + 2);
          mapGet h (7 * w + 3); mapGet h (7 * w + 4); mapGet h (7 * w + 5);
          mapGet h (7 * w + 6)].
Proof.
  intros Hs Hw. destruct (sortMapIntoSlice_seeded h Hs) as [rest [E Hrest]].
  unfold gridOf, buildCols. rewrite E.
  replace daysInLastSixMonths with ((7 * w - 1) + (7 + (177 - 7 * w)))
    by (unfold daysInLastSixMonths; lia).
  rewrite seqZ_app by lia. rewrite (seqZ_app _ 7) by lia.
  replace (1 + (7 * w - 1)) with (7 * w) by lia.
  rewrite <- !app_assoc. do 2 rewrite fold_left_app.
  destruct (fold_left (buildColsStep h) (seqZ 1 (7 * w - 1)) (∅, [])) as [cols col].
  rewrite buildCols_fold_week by lia. cbv zeta.
  rewrite buildCols_fold_frame.
  - simpl. apply lookup_insert_eq.
  - intros k Hk. apply quot_above; [lia|].
    apply elem_of_app in Hk as [Hk|Hk].
    + apply elem_of_seqZ in Hk. lia.
    + rewrite Forall_forall in Hrest. specialize (Hrest k Hk).
      unfold daysInLastSixMonths in Hrest. lia.
Qed.

(** C10, as the code has it: in the grid of every histogram the aggregation
    returns, key 0 is absent, the week-0 column has exactly the six elements
    for the keys 1 to 6, so that its slice index [j] holds the count of
    key [j + 1] and that is what [col[j]] hands to [printCell] in row [j],
    and each of the columns 1 to 25 has exactly the seven elements for the
    keys [7 w] to [7 w + 6], slice index equal to weekday position. *)
Theorem aggregated_grid_columns
    (clock : nat -> Time) (git : string -> Repository) (repos : list string)
    (email : string) (s : State) (h : gmap Z Z) :
  fst (processRepositories clock git repos email s) = Ok h ->
  h !! 0 = None /\
  gridOf h !! 0 =
    Some [mapGet h 1; mapGet h 2; mapGet h 3; mapGet h 4; mapGet h 5; mapGet h 6] /\
  (forall (j : Z) (st : State), 0 <= j < 6 ->
     index [mapGet h 1; mapGet h 2; mapGet h 3; mapGet h 4; mapGet h 5; mapGet h 6] j st =
       (Ok (mapGet h (j + 1)), st)) /\
  (forall w : Z, 1 <= w <= 25 ->
     gridOf h !! w =
       Some [mapGet h (7 * w + 0); mapGet h (7 * w + 1); mapGet h (7 * w + 2);
             mapGet h (7 * w + 3); mapGet h (7 * w + 4); mapGet h (7 * w + 5);
             mapGet h (7 * w + 6)]).
Proof.
  intros Hrun. pose proof (seeded_processRepositories _ _ _ _ _ _ Hrun) as Hs.
  split; [|split; [|split]].
  - destruct (h !! 0) as [v|] eqn:E; [|reflexivity].
    destruct Hs as [_ Hlow]. specialize (Hlow 0 (ex_intro _ v E)). lia.
  - apply gridOf_week_zero, Hs.
  - intros j st Hj.
    assert (j = 0 \/ j = 1 \/ j = 2 \/ j = 3 \/ j = 4 \/ j = 5) as Hc by lia.
    clear Hj. destruct Hc as [->|[->|[->|[->|[->| ->]]]]]; reflexivity.
  - intros w Hw. apply gridOf_full_week; assumption.
Qed.

Lemma aggregated_grid_columns_witness :
  gridOf Examples.tuesdayHistogram !! 3 =
    Some [mapGet Examples.tuesdayHistogram (7 * 3 + 0);
          mapGet Examples.tuesdayHistogram (7 * 3 + 1);
          mapGet Examples.tuesdayHistogram (7 * 3 + 2);
          mapGet Examples.tuesdayHistogram (7 * 3 + 3);
          mapGet Examples.tuesdayHistogram (7 * 3 + 4);
          mapGet Examples.tuesdayHistogram (7 * 3 + 5);
          mapGet Examples.tuesdayHistogram (7 * 3 + 6)].
Proof.
  refine (proj2 (proj2 (proj2 (aggregated_grid_columns
            (Examples.frozen Examples.tuesdayNoon)
            (Examples.oneCommit (Examples.daysBefore Examples.tuesdayNoon 183))
            ["repo"%string] Examples.me Examples.s0 Examples.tuesdayHistogram _))) 3 _).
  - vm_compute. reflexivity.
  - lia.
Defined.

(** C10 fails as stated: on a Tuesday (offset 5) a commit made 183 days
    earlier is counted at key 188, the only key above 183.  Column 26 is
    then stored with the three elements of the keys 182, 183 and 188: it is
    a stored column other than week 0 with fewer than seven elements, and
    its slice index 2 holds the count of weekday position 6. *)
Lemma sparse_week_is_short :
  Examples.tuesdayHistogram !! 188 = Some 1 /\
  gridOf Examples.tuesdayHistogram !! 26 = Some [0; 0; 1].
Proof. vm_compute. split; reflexivity. Qed.

(** ** The system clock *)

Lemma bind_ext {A B} (m1 m2 : M A) (f1 f2 : A -> M B) (s : State) :
  m1 s = m2 s -> (forall a s', f1 a s' = f2 a s') -> bind m1 f1 s = bind m2 f2 s.
Proof.
  intros Hm Hf. unfold bind. rewrite Hm.
  destruct (m2 s) as [[a| |] s']; [apply Hf|reflexivity|reflexivity].
Qed.

Lemma timeNow_bind {A} (clock : nat -> Time) (f : Time -> M A) (s : State) :
  bind (timeNow clock) f s = f (clock (ticks s)) (tick s).
Proof. reflexivity. Qed.

Lemma forDown_ext (n : nat) (body1 body2 : Z -> M unit) (s : State) :
  (forall i s', body1 i s' = body2 i s') -> forDown n body1 s = forDown n body2 s.
Proof.
  intros Hb. revert s. induction n as [|n IH]; intros s; simpl;
    apply bind_ext; auto.
Qed.

Lemma noHang_bind {A B} (m : M A) (f : A -> M B) :
  noHang m -> (forall a, noHang (f a)) -> noHang (bind m f).
Proof.
  intros Hm Hf s. unfold bind. specialize (Hm s).
  destruct (m s) as [[a| |] s']; simpl in *; [apply Hf|discriminate|congruence].
Qed.

Lemma noHang_forDown (n : nat) (body : Z -> M unit) :
  (forall i, noHang (body i)) -> noHang (forDown n body).
Proof.
  intros Hb. induction n as [|n IH]; simpl; apply noHang_bind; auto.
  intros _ s. discriminate.
Qed.

Lemma sameDay_beginning (t u : Time) :
  sameDay t u -> getBeginningOfDay t = getBeginningOfDay u.
Proof. intros [Hz Hd]. unfold getBeginningOfDay. rewrite Hz, Hd. reflexivity. Qed.

Lemma sameDay_Weekday (t u : Time) : sameDay t u -> Weekday t = Weekday u.
Proof. intros [_ Hd]. unfold Weekday. rewrite Hd. reflexivity. Qed.

Lemma sameDay_boundaries (t u date : Time) :
  sameDay t u -> dayBoundaries t date = dayBoundaries u date.
Proof. intros [Hz Hd]. unfold dayBoundaries. rewrite Hz, Hd. reflexivity. Qed.

Lemma Add_Add (t : Time) (a b : Z) : Add (Add t a) b = Add t (a + b).
Proof. unfold Add. simpl. rewrite Z.add_assoc. reflexivity. Qed.

(* a midnight of the location, [m] days after the start of the day of [u],
   is after an instant of that day exactly when [m] is at least 1 *)
Lemma After_same_day (t u : Time) (m : Z) :
  sameDay t u -> After (Add (getBeginningOfDay u) (m * day)) t = (1 <=? m).
Proof.
  intros Hd. rewrite <- (sameDay_beginning t u Hd).
  pose proof (beginning_le t) as Hb. pose proof day_pos as Hp.
  change (After (Add (getBeginningOfDay t) (m * day)) t)
    with (unixNano t <? unixNano (getBeginningOfDay t) + m * day).
  set (B := unixNano (getBeginningOfDay t)) in *. clearbody B.
  generalize dependent day. intros d Hb Hp.
  destruct (Z.ltb_spec (unixNano t) (B + m * d)), (Z.leb_spec 1 m);
    try reflexivity; nia.
Qed.

(** Two runs whose clocks stay within one civil day. *)
Section SameDay.

Variables clock1 clock2 : nat -> Time.
Variable now : Time.
Hypothesis day1 : forall n, sameDay (clock1 n) now.
Hypothesis day2 : forall n, sameDay (clock2 n) now.

Variable git : string -> Repository.
Variable email : string.

Lemma calcOffset_same (s : State) : calcOffset clock1 s = calcOffset clock2 s.
Proof.
  rewrite !calcOffset_value.
  rewrite (sameDay_Weekday _ _ (day1 _)), (sameDay_Weekday _ _ (day2 _)). reflexivity.
Qed.

Lemma countDaysSinceDate_same (date : Time) (s : State) :
  countDaysSinceDate clock1 date s = countDaysSinceDate clock2 date s.
Proof.
  rewrite !countDaysSinceDate_value.
  rewrite (sameDay_boundaries _ _ date (day1 _)), (sameDay_boundaries _ _ date (day2 _)).
  reflexivity.
Qed.

Lemma forEachCommit_same (offset : Z) (commits : gmap Z Z) (c : Commit) (s : State) :
  forEachCommit clock1 email offset commits c s =
  forEachCommit clock2 email offset commits c s.
Proof.
  unfold forEachCommit. apply bind_ext; [apply countDaysSinceDate_same|reflexivity].
Qed.

Lemma forEach_same (offset : Z) (cs : list Commit) (commits : gmap Z Z) (s : State) :
  forEach (forEachCommit clock1 email offset) cs commits s =
  forEach (forEachCommit clock2 email offset) cs commits s.
Proof.
  revert commits s. induction cs as [|c cs IH]; intros commits s; cbn [forEach];
    [reflexivity|].
  apply bind_ext; [apply forEachCommit_same|]. intros h s'. apply IH.
Qed.

Lemma fillCommits_same (path : string) (commits : gmap Z Z) (s : State) :
  fillCommits clock1 git email path commits s =
  fillCommits clock2 git email path commits s.
Proof.
  unfold fillCommits.
  destruct (git path) as [e|e|e|cs err]; [reflexivity|reflexivity|reflexivity|].
  apply bind_ext; [apply calcOffset_same|]. intros offset s'.
  apply bind_ext; [apply forEach_same|reflexivity].
Qed.

Lemma forRepos_same (paths : list string) (commits : gmap Z Z) (s : State) :
  forRepos clock1 git email paths commits s = forRepos clock2 git email paths commits s.
Proof.
  revert commits s. induction paths as [|path paths IH]; intros commits s;
    cbn [forRepos]; [reflexivity|].
  apply bind_ext; [apply fillCommits_same|]. intros h s'. apply IH.
Qed.

Lemma printMonthsLoop_same (n : nat) (m month : Z) (s : State) :
  printMonthsLoop clock1 n (Add (getBeginningOfDay now) (m * day)) month s =
  printMonthsLoop clock2 n (Add (getBeginningOfDay now) (m * day)) month s.
Proof.
  revert m month s. induction n as [|n IH]; intros m month s;
    cbn [printMonthsLoop]; [reflexivity|].
  apply bind_ext; [reflexivity|]. intros month' s'.
  rewrite !timeNow_bind, Add_Add.
  replace (m * day + 7 * Hour * 24) with ((m + 7) * day) by (unfold day; lia).
  rewrite (After_same_day _ _ _ (day1 _)), (After_same_day _ _ _ (day2 _)).
  destruct (1 <=? m + 7); [reflexivity|]. apply IH.
Qed.

Lemma printMonths_same (fuel : nat) (s : State) :
  printMonths clock1 fuel s = printMonths clock2 fuel s.
Proof.
  unfold printMonths. rewrite !timeNow_bind. cbv zeta.
  rewrite (sameDay_beginning _ _ (day1 _)), (sameDay_beginning _ _ (day2 _)).
  apply bind_ext; [reflexivity|]. intros _ s'.
  apply bind_ext; [|reflexivity].
  replace (- (daysInLastSixMonths * Hour * 24)) with ((-183) * day) by reflexivity.
  apply printMonthsLoop_same.
Qed.

Lemma printCells_same (fuel : nat) (cols : gmap Z column) (s : State) :
  printCells clock1 fuel cols s = printCells clock2 fuel cols s.
Proof.
  unfold printCells. apply bind_ext; [apply printMonths_same|]. intros _ s1.
  apply forDown_ext. intros j s2. apply bind_ext; [|reflexivity].
  apply forDown_ext. intros i s3. apply bind_ext; [reflexivity|]. intros _ s4.
  destruct (cols !! i) as [col|]; [|reflexivity].
  apply bind_ext; [|reflexivity].
  destruct (i =? 0); [|reflexivity].
  apply bind_ext; [apply calcOffset_same|reflexivity].
Qed.

(* the rendering is not stopped by the fuel once it allows the 27 rounds
   the loop of printMonths makes within a day *)
Lemma noHang_printMonthsLoop (n : nat) (m month : Z) :
  (1 <= n)%nat -> 1 <= m + 7 * Z.of_nat n ->
  noHang (printMonthsLoop clock1 n (Add (getBeginningOfDay now) (m * day)) month).
Proof.
  revert m month. induction n as [|n IH]; intros m month Hn Hm; [lia|].
  cbn [printMonthsLoop]. apply noHang_bind.
  - destruct (negb _); intros s; discriminate.
  - intros month' s. rewrite timeNow_bind, Add_Add.
    replace (m * day + 7 * Hour * 24) with ((m + 7) * day) by (unfold day; lia).
    rewrite (After_same_day _ _ _ (day1 _)).
    destruct (Z.leb_spec 1 (m + 7)); [discriminate|].
    apply IH; lia.
Qed.

End SameDay.

Lemma noHang_index (col : column) (j : Z) : noHang (index col j).
Proof.
  intros s. unfold index. destruct (_ && _); [|discriminate].
  destruct (col !! Z.to_nat j); discriminate.
Qed.

Lemma noHang_printCell (val : Z) (today : bool) : noHang (printCell val today).
Proof. intros s. unfold printCell. destruct (val =? 0); discriminate. Qed.

Lemma noHang_calcOffset (clock : nat -> Time) : noHang (calcOffset clock).
Proof. intros s. rewrite calcOffset_value. discriminate. Qed.

Lemma noHang_printCells (clock : nat -> Time) (now : Time) (fuel : nat)
    (cols : gmap Z column) :
  (forall n, sameDay (clock n) now) -> (27 <= fuel)%nat ->
  noHang (printCells clock fuel cols).
Proof.
  intros Hday Hfuel. unfold printCells. apply noHang_bind.
  - unfold printMonths. intros s. rewrite timeNow_bind. cbv zeta.
    rewrite (sameDay_beginning _ _ (Hday _)).
    replace (- (daysInLastSixMonths * Hour * 24)) with ((-183) * day) by reflexivity.
    refine (noHang_bind _ _ _ _ (tick s)); [intros s'; discriminate|]. intros _.
    apply noHang_bind; [|intros _ s'; discriminate].
    apply (noHang_printMonthsLoop clock now Hday); lia.
  - intros _. apply noHang_forDown. intros j. apply noHang_bind; [|intros _ s; discriminate].
    apply noHang_forDown. intros i. apply noHang_bind.
    + destruct (i =? _); [|intros s; discriminate].
      intros s. unfold printDayCol. discriminate.
    + intros _. destruct (cols !! i) as [col|]; [|apply noHang_printCell].
      apply noHang_bind.
      * destruct (i =? 0); [|intros s; discriminate].
        apply noHang_bind; [apply noHang_calcOffset|]. intros offset s. discriminate.
      * intros [|].
        -- apply noHang_bind; [apply noHang_index|]. intros v. apply noHang_printCell.
        -- destruct (_ >? j); [|apply noHang_printCell].
           apply noHang_bind; [apply noHang_index|]. intros v. apply noHang_printCell.
Qed.

Lemma noHang_processRepositories (clock : nat -> Time) (git : string -> Repository)
    (repos : list string) (email : string) :
  noHang (processRepositories clock git repos email).
Proof.
  unfold processRepositories. cbv zeta.
  generalize (seedLoop (Z.to_nat daysInLastSixMonths) ∅).
  induction repos as [|path repos IH]; intros commits; cbn [forRepos].
  - intros s. discriminate.
  - apply noHang_bind; [|intros h; apply IH].
    intros s. destruct (repoError (git path)) as [e|] eqn:E.
    + destruct (fillCommits_failing clock git email path commits s e E) as [s' ->].
      discriminate.
    + destruct (fillCommits_readable clock git email path commits s E) as [h ->].
      discriminate.
Qed.

(** C9, as the code has it: [countDaysSinceDate], [calcOffset] and
    [printMonths] read the system clock themselves at every call, there is no
    instant handed in.  What a run does depends on those readings only
    through their civil day: two runs over the same repositories and the
    same e-mail whose clock readings all fall within one and the same day
    return the same histogram and write the same bytes (and stop the same
    way, when they panic), and the rendering makes its 27 rounds of the
    month loop and ends. *)
Theorem runs_within_one_day_agree
    (clock1 clock2 : nat -> Time) (now : Time) (git : string -> Repository)
    (repos : list string) (fuel : nat) (email : string) (s : State) :
  (forall n, sameDay (clock1 n) now) ->
  (forall n, sameDay (clock2 n) now) ->
  (27 <= fuel)%nat ->
  processRepositories clock1 git repos email s =
    processRepositories clock2 git repos email s /\
  stats clock1 git repos fuel email s = stats clock2 git repos fuel email s /\
  fst (stats clock1 git repos fuel email s) <> Hang.
Proof.
  intros H1 H2 Hfuel.
  assert (Hagg : forall s', processRepositories clock1 git repos email s' =
                            processRepositories clock2 git repos email s').
  { intros s'. apply (forRepos_same clock1 clock2 now H1 H2). }
  split; [apply Hagg|]. split.
  - unfold stats. apply bind_ext; [apply Hagg|]. intros h s'.
    apply (printCells_same clock1 clock2 now H1 H2).
  - unfold stats. apply noHang_bind; [apply noHang_processRepositories|].
    intros h. apply (noHang_printCells clock1 now); assumption.
Qed.

Lemma runs_within_one_day_agree_witness :
  processRepositories (Examples.frozen Examples.saturdayNoon)
      (Examples.oneCommit Examples.fridayNoon) ["repo"%string] Examples.me Examples.s0 =
    processRepositories (Examples.anHourLater Examples.saturdayNoon)
      (Examples.oneCommit Examples.fridayNoon) ["repo"%string] Examples.me Examples.s0 /\
  stats (Examples.frozen Examples.saturdayNoon)
      (Examples.oneCommit Examples.fridayNoon) ["repo"%string] 27 Examples.me Examples.s0 =
    stats (Examples.anHourLater Examples.saturdayNoon)
      (Examples.oneCommit Examples.fridayNoon) ["repo"%string] 27 Examples.me Examples.s0 /\
  fst (stats (Examples.frozen Examples.saturdayNoon)
         (Examples.oneCommit Examples.fridayNoon) ["repo"%string] 27 Examples.me
         Examples.s0) <> Hang.
Proof.
  apply (runs_within_one_day_agree _ _ Examples.saturdayNoon).
  - intros n. split; reflexivity.
  - intros [|n]; split; vm_compute; reflexivity.
  - lia.
Defined.

(** C9 fails as stated: two runs over the same repository and e-mail that
    both start at Friday 23:59:59, the clock of the second passing midnight
    after its first reading.  The offset is taken on the Friday in both, but
    the second run counts the commit of Friday noon from the Saturday: the
    histograms differ at key 2, and so do the bytes written. *)
Lemma clock_passing_midnight_changes_run :
  Examples.frozen Examples.fridayLate 0%nat = Examples.overMidnight 0%nat /\
  histogramKey
    (processRepositories (Examples.frozen Examples.fridayLate)
       (Examples.oneCommit Examples.fridayNoon) ["repo"%string] Examples.me Examples.s0)
    2 = Some 1 /\
  histogramKey
    (processRepositories Examples.overMidnight
       (Examples.oneCommit Examples.fridayNoon) ["repo"%string] Examples.me Examples.s0)
    2 = Some 0 /\
  String.eqb
    (stdout (snd (stats (Examples.frozen Examples.fridayLate)
                    (Examples.oneCommit Examples.fridayNoon) ["repo"%string] 27
                    Examples.me Examples.s0)))
    (stdout (snd (stats Examples.overMidnight
                    (Examples.oneCommit Examples.fridayNoon) ["repo"%string] 27
                    Examples.me Examples.s0))) = false.
Proof. vm_compute. repeat split; reflexivity. Qed.


(** ** Joining the stored and the found repositories *)

Lemma sliceContains_elem_of (slice : list string) (value : string) :
  sliceContains slice value = true <-> value ∈ slice.
Proof.
  induction slice as [|v slice IH]; simpl.
  - split; [discriminate|]. intros H. inversion H.
  - rewrite elem_of_cons. destruct (String.eqb_spec v value) as [->|Hne].
    + split; auto.
    + rewrite IH. split; [auto|]. intros [->|H]; [contradiction|exact H].
Qed.

(** X1: the joined list holds exactly the lines that were stored or were
    found: nothing is lost, nothing else comes in. *)
Theorem joinSlices_elements (new existing : list string) (x : string) :
  x ∈ joinSlices new existing <-> x ∈ existing \/ x ∈ new.
Proof.
  revert existing. induction new as [|i new IH]; intros existing; simpl.
  - split; [auto|]. intros [H|H]; [exact H|inversion H].
  - rewrite IH, elem_of_cons. destruct (sliceContains existing i) eqn:E; simpl.
    + apply sliceContains_elem_of in E. split; [tauto|].
      intros [H|[->|H]]; auto.
    + rewrite elem_of_app, list_elem_of_singleton. tauto.
Qed.

(** X2: when the stored lines hold no line twice, neither does the joined
    list, also when a path is found twice or is stored already. *)
Theorem joinSlices_NoDup (new existing : list string) :
  NoDup existing -> NoDup (joinSlices new existing).
Proof.
  revert existing. induction new as [|i new IH]; intros existing Hnd; simpl;
    [exact Hnd|].
  apply IH. destruct (sliceContains existing i) eqn:E; simpl; [exact Hnd|].
  apply NoDup_app. split; [exact Hnd|]. split.
  - intros x Hx Hi. apply list_elem_of_singleton in Hi as ->.
    apply sliceContains_elem_of in Hx. congruence.
  - apply NoDup_singleton.
Qed.

Lemma joinSlices_NoDup_witness : NoDup (joinSlices ["/a"; "/b"; "/a"] ["/b"; "/c"])%string.
Proof.
  apply joinSlices_NoDup. apply NoDup_cons. split.
  - intros H. apply elem_of_cons in H as [H|H]; [discriminate|]. inversion H.
  - apply NoDup_singleton.
Defined.




(** ** The scan of a folder *)

Lemma append_cons (x : ascii) (a b : string) : (String x a +:+ b = String x (a +:+ b))%string.
Proof. reflexivity. Qed.

Lemma append_nil_r (a : string) : (a +:+ "" = a)%string.
Proof.
  induction a as [|x a IH]; [reflexivity|]. rewrite append_cons, IH. reflexivity.
Qed.

Lemma length_append (a b : string) :
  String.length (a +:+ b) = (String.length a + String.length b)%nat.
Proof.
  induction a as [|x a IH]; [reflexivity|]. rewrite append_cons. simpl. rewrite IH.
  reflexivity.
Qed.

Lemma substring_all (a : string) : substring 0 (String.length a) a = a.
Proof. induction a as [|x a IH]; [reflexivity|]. simpl. rewrite IH. reflexivity. Qed.

Lemma substring_append_l (a b : string) : substring 0 (String.length a) (a +:+ b) = a.
Proof.
  induction a as [|x a IH].
  - destruct b; reflexivity.
  - rewrite append_cons. simpl. rewrite IH. reflexivity.
Qed.

Lemma substring_append_r (a b : string) :
  substring (String.length a) (String.length b) (a +:+ b) = b.
Proof.
  induction a as [|x a IH]; [apply substring_all|].
  rewrite append_cons. simpl. exact IH.
Qed.

Lemma TrimSuffix_append (a suffix : string) : TrimSuffix (a +:+ suffix) suffix = a.
Proof.
  unfold TrimSuffix, HasSuffix. rewrite length_append.
  replace (String.length a + String.length suffix - String.length suffix)%nat
    with (String.length a) by lia.
  rewrite substring_append_r, String.eqb_refl, substring_append_l.
  destruct (Nat.leb_spec (String.length suffix) (String.length a + String.length suffix));
    [reflexivity|lia].
Qed.

Lemma printedLines_app (a b : list string) :
  printedLines (a ++ b) = (printedLines a +:+ printedLines b)%string.
Proof.
  induction a as [|p a IH]; [reflexivity|].
  simpl. rewrite IH, !append_assoc. reflexivity.
Qed.

Lemma scanOutcome_nil (folders : list string) (out : string) :
  scanOutcome folders [] None out = (Returned folders, out).
Proof. unfold scanOutcome. simpl. rewrite app_nil_r, append_nil_r. reflexivity. Qed.

Lemma rangeFiles_app (scan : list string -> string -> Dir -> Scan (list string))
    (folder : string) (pre post : list FileInfo) (folders : list string) (out : string) :
  rangeFiles scan folder (pre ++ post) folders out =
    match rangeFiles scan folder pre folders out with
    | (Returned folders', out') => rangeFiles scan folder post folders' out'
    | (Fatal err, out') => (Fatal err, out')
    end.
Proof.
  revert folders out. induction pre as [|[name|name below] pre IH]; intros folders out.
  - reflexivity.
  - apply IH.
  - cbn [app rangeFiles]. destruct (String.eqb name ".git"); [apply IH|].
    destruct (_ || _); [apply IH|].
    destruct (scan _ _ below out) as [[folders'|err] out']; [apply IH|reflexivity].
Qed.

(* induction over a folder and all the folders below it *)
Lemma Dir_induction (P : Dir -> Prop) :
  (forall err, P (Unreadable err)) ->
  (forall files,
     Forall (fun file => match file with File _ => True | Folder _ below => P below end) files ->
     P (Listing files)) ->
  forall dir, P dir.
Proof.
  intros Hu Hl. fix IH 1. intros [err|files]; [apply Hu|].
  apply Hl. induction files as [|[name|name below] files IHfiles]; constructor;
    [exact I|exact IHfiles|apply IH|exact IHfiles].
Qed.

Lemma scanGitFolders_outcome (dir : Dir) (folder : string) :
  exists (found : list string) (fatal : option string),
    forall (folders : list string) (out : string),
      scanGitFolders folders folder dir out = scanOutcome folders found fatal out.
Proof.
  revert folder. induction dir as [err|files IH] using Dir_induction; intros folder.
  - exists [], (Some err). intros folders out. unfold scanOutcome. simpl.
    rewrite append_nil_r. reflexivity.
  - cbn [scanGitFolders]. generalize (TrimSuffix folder "/"). clear folder. intros folder.
    induction IH as [|[name|name below] files Hbelow _ IHfiles].
    + exists [], None. intros folders out. rewrite scanOutcome_nil. reflexivity.
    + exact IHfiles.
    + destruct IHfiles as [found [fatal Hrest]]. cbn [rangeFiles].
      destruct (String.eqb name ".git").
      { exists (TrimSuffix (folder +:+ "/" +:+ name) "/.git" :: found), fatal.
        intros folders out. rewrite Hrest.
        unfold scanOutcome. cbn [printedLines].
        rewrite <- app_assoc, !append_assoc. reflexivity. }
      destruct (_ || _); [exists found, fatal; exact Hrest|].
      destruct (Hbelow (folder +:+ "/" +:+ name)) as [found' [[err|] Hsub]].
      * exists found', (Some err). intros folders out. rewrite Hsub. reflexivity.
      * exists (found' ++ found), fatal. intros folders out. rewrite Hsub.
        unfold scanOutcome at 1. rewrite Hrest. unfold scanOutcome.
        rewrite printedLines_app, app_assoc, !append_assoc. reflexivity.
Qed.

(** X5: what a scan finds, and whether log.Fatal ends it, depends on the
    folder alone: the list handed in comes back with the found paths added
    at its end, and every found path is printed on a line of its own, those
    found before a fatal error included. *)
Theorem scanGitFolders_appends_found (dir : Dir) (folder : string) :
  exists (found : list string) (fatal : option string),
    forall (folders : list string) (out : string),
      scanGitFolders folders folder dir out =
        (match fatal with
         | None => Returned (folders ++ found)
         | Some err => Fatal err
         end, out +:+ printedLines found).
Proof. exact (scanGitFolders_outcome dir folder). Qed.

(** X6: a folder named vendor or node_modules is passed over whatever it
    holds: the scan goes as if it were not there, also when it cannot be
    read or holds repositories. *)
Theorem scanGitFolders_skips_vendor (folders : list string) (folder : string)
    (pre post : list FileInfo) (below : Dir) (out : string) :
  scanGitFolders folders folder (Listing (pre ++ Folder "vendor" below :: post)) out =
    scanGitFolders folders folder (Listing (pre ++ post)) out /\
  scanGitFolders folders folder (Listing (pre ++ Folder "node_modules" below :: post)) out =
    scanGitFolders folders folder (Listing (pre ++ post)) out.
Proof.
  cbn [scanGitFolders]. rewrite !rangeFiles_app.
  split; destruct (rangeFiles _ _ pre folders out) as [[folders'|err] out']; reflexivity.
Qed.

(** X7: an entry that is no directory is passed over, whatever its name: a
    .git that is a file (as in a linked checkout) marks no repository. *)
Theorem scanGitFolders_ignores_files (folders : list string) (folder : string)
    (pre post : list FileInfo) (name : string) (out : string) :
  scanGitFolders folders folder (Listing (pre ++ File name :: post)) out =
    scanGitFolders folders folder (Listing (pre ++ post)) out.
Proof.
  cbn [scanGitFolders]. rewrite !rangeFiles_app.
  destruct (rangeFiles _ _ pre folders out) as [[folders'|err] out']; reflexivity.
Qed.

(** X8: a folder that holds a directory named .git is a repository: what is
    below .git is not looked at, and a scan that returns has the folder
    itself, without its last slash, among the found paths. *)
Theorem scanGitFolders_reports_parent_of_git (folders : list string) (folder : string)
    (pre post : list FileInfo) (below : Dir) (out : string) :
  (forall below' : Dir,
     scanGitFolders folders folder (Listing (pre ++ Folder ".git" below :: post)) out =
     scanGitFolders folders folder (Listing (pre ++ Folder ".git" below' :: post)) out) /\
  (forall (found : list string) (out' : string),
     scanGitFolders folders folder (Listing (pre ++ Folder ".git" below :: post)) out =
       (Returned found, out') ->
     TrimSuffix folder "/" ∈ found).
Proof.
  split.
  - intros below'. cbn [scanGitFolders]. rewrite !rangeFiles_app.
    destruct (rangeFiles _ _ pre folders out) as [[folders'|err] out']; reflexivity.
  - intros found out'. cbn [scanGitFolders]. rewrite rangeFiles_app.
    destruct (rangeFiles _ _ pre folders out) as [[folders'|err] out1]; [|discriminate].
    cbn [rangeFiles]. change (String.eqb ".git" ".git") with true. cbv iota zeta.
    change (TrimSuffix folder "/" +:+ "/" +:+ ".git")%string
      with (TrimSuffix folder "/" +:+ "/.git")%string.
    rewrite TrimSuffix_append.
    destruct (scanGitFolders_outcome (Listing post) folder) as [found' [fatal Hpost]].
    cbn [scanGitFolders] in Hpost. rewrite Hpost. unfold scanOutcome.
    destruct fatal; intros [= <- _].
    apply elem_of_app. left. apply elem_of_app. right. left.
Qed.

Lemma scanGitFolders_reports_parent_of_git_witness :
  TrimSuffix "/home/me/code/" "/" ∈ ["/home/me/code"%string].
Proof.
  refine (proj2 (scanGitFolders_reports_parent_of_git [] "/home/me/code/" []
                   [File "README"] (Listing [File "HEAD"]) "")
            ["/home/me/code"%string] ("/home/me/code" +:+ newline) _).
  reflexivity.
Defined.

(** X9: a folder that cannot be read ends the scan with log.Fatal wherever
    it stands in the tree, unless it is named .git, vendor or node_modules:
    the paths found before it have been printed, the list is not returned. *)
Theorem scanGitFolders_unreadable_subfolder (folders : list string) (folder : string)
    (pre post : list FileInfo) (name err : string) (out : string)
    (folders' : list string) (out' : string) :
  scanGitFolders folders folder (Listing pre) out = (Returned folders', out') ->
  name <> ".git"%string -> name <> "vendor"%string -> name <> "node_modules"%string ->
  scanGitFolders folders folder (Listing (pre ++ Folder name (Unreadable err) :: post)) out =
    (Fatal err, out').
Proof.
  cbn [scanGitFolders]. intros Hpre Hgit Hvendor Hnode.
  rewrite rangeFiles_app, Hpre. cbn [rangeFiles].
  apply String.eqb_neq in Hgit, Hvendor, Hnode. rewrite Hgit, Hvendor, Hnode.
  reflexivity.
Qed.

Lemma scanGitFolders_unreadable_subfolder_witness :
  scanGitFolders [] "/home/me"
    (Listing ([Folder "code" Examples.code] ++
              Folder "private" (Unreadable "permission denied") :: [File "todo"])) "" =
    (Fatal "permission denied", "/home/me/code/app" +:+ newline).
Proof.
  apply (scanGitFolders_unreadable_subfolder [] "/home/me" [Folder "code" Examples.code]
           [File "todo"] "private" "permission denied" "" ["/home/me/code/app"%string]).
  - reflexivity.
  - discriminate.
  - discriminate.
  - discriminate.
Defined.

(** ** More on the aggregation *)

(** X10: [sortMapIntoSlice] returns the keys of the map, every key once and
    nothing else, in ascending order; there are as many as the map has
    entries, none for the empty map. *)
Theorem sortMapIntoSlice_sorted_keys (m : gmap Z Z) :
  Sorted Z.le (sortMapIntoSlice m) /\
  NoDup (sortMapIntoSlice m) /\
  (forall k : Z, k ∈ sortMapIntoSlice m <-> is_Some (m !! k)) /\
  length (sortMapIntoSlice m) = size m.
Proof.
  split; [apply Sorted_sortMapIntoSlice|].
  split; [apply NoDup_sortMapIntoSlice|].
  split; [apply elem_of_sortMapIntoSlice|].
  unfold sortMapIntoSlice. rewrite merge_sort_Permutation, length_fmap.
  apply length_map_to_list.
Qed.




(** X13: a repository in which no commit is of the target author leaves the
    histogram as it was; the clock is still read once for the offset and
    once for every commit. *)
Theorem fillCommits_other_authors (clock : nat -> Time) (git : string -> Repository)
    (email path : string) (cs : list Commit) (commits : gmap Z Z) (s : State) :
  git path = History cs None ->
  Forall (fun c => AuthorEmail c <> email) cs ->
  fillCommits clock git email path commits s =
    (Ok commits, mkState (ticks s + S (length cs)) (stdout s)).
Proof.
  intros Hgit Hall. unfold fillCommits. rewrite Hgit. unfold bind at 1.
  rewrite calcOffset_value. generalize (offsetOfWeekday (Weekday (clock (ticks s)))).
  intros offset.
  assert (Hloop : forall s', forEach (forEachCommit clock email offset) cs commits s' =
                             (Ok commits, mkState (ticks s' + length cs) (stdout s'))).
  { clear Hgit. induction Hall as [|c cs Hc _ IH]; intros s'.
    - simpl. rewrite Nat.add_0_r. destruct s'; reflexivity.
    - cbn [forEach]. unfold bind at 1. unfold forEachCommit at 1. unfold bind at 1.
      rewrite countDaysSinceDate_value. apply String.eqb_neq in Hc. rewrite Hc.
      cbn [negb ret]. rewrite IH. cbn [length tick ticks stdout]. do 2 f_equal. lia. }
  unfold bind. rewrite Hloop. cbn [tick ticks stdout ret]. do 2 f_equal. lia.
Qed.

Lemma fillCommits_other_authors_witness :
  fillCommits (Examples.frozen Examples.saturdayNoon)
      (Examples.oneCommit Examples.fridayNoon) "you@example.com" "repo" ∅ Examples.s0 =
    (Ok ∅, mkState 2 "").
Proof.
  apply (fillCommits_other_authors (Examples.frozen Examples.saturdayNoon)
           (Examples.oneCommit Examples.fridayNoon) "you@example.com" "repo"
           [mkCommit Examples.me Examples.fridayNoon] ∅ Examples.s0).
  - reflexivity.
  - constructor; [discriminate|constructor].
Defined.


(** X15: every histogram the aggregation returns holds each of the keys 1
    to 183, commits or not, and no key below 1. *)
Theorem processRepositories_keys (clock : nat -> Time) (git : string -> Repository)
    (repos : list string) (email : string) (s : State) (h : gmap Z Z) :
  fst (processRepositories clock git repos email s) = Ok h ->
  (forall k : Z, 1 <= k <= daysInLastSixMonths -> is_Some (h !! k)) /\
  (forall k : Z, is_Some (h !! k) -> 1 <= k).
Proof. intros Hrun. exact (seeded_processRepositories _ _ _ _ _ _ Hrun). Qed.

Lemma processRepositories_keys_witness :
  (forall k : Z, 1 <= k <= daysInLastSixMonths -> is_Some (Examples.tuesdayHistogram !! k)) /\
  (forall k : Z, is_Some (Examples.tuesdayHistogram !! k) -> 1 <= k).
Proof.
  apply (processRepositories_keys (Examples.frozen Examples.tuesdayNoon)
           (Examples.oneCommit (Examples.daysBefore Examples.tuesdayNoon 183))
           ["repo"%string] Examples.me Examples.s0).
  vm_compute. reflexivity.
Defined.


(** ** Which weeks are stored *)

Lemma week_of_saturday_key (k w : Z) :
  Z.rem k 7 = 6 /\ Z.quot k 7 = w <-> 0 <= w /\ k = 7 * w + 6.
Proof.
  split.
  - intros [Hr Hq]. pose proof (Z.quot_rem' k 7) as Hk. rewrite Hr, Hq in Hk.
    split; [|lia]. destruct (Z.le_gt_cases 0 k) as [Hpos|Hneg].
    + rewrite <- Hq. apply Z.quot_pos; lia.
    + pose proof (Z.rem_bound_pos_neg k 7 ltac:(lia) ltac:(lia)) as Hb. lia.
  - intros [Hw ->]. destruct (quot_rem_week w 6 Hw ltac:(lia)) as [Hq Hr]. auto.
Qed.

Lemma buildCols_fold_stored (h : gmap Z Z) (keys : list Z)
    (st : gmap Z column * column) (w : Z) :
  (is_Some ((fold_left (buildColsStep h) keys st).1 !! w) <->
     is_Some (st.1 !! w) \/ (0 <= w /\ 7 * w + 6 ∈ keys)) /\
  ((forall u c, st.1 !! u = Some c -> last c = Some (mapGet h (7 * u + 6))) ->
   forall c, (fold_left (buildColsStep h) keys st).1 !! w = Some c ->
             last c = Some (mapGet h (7 * w + 6))).
Proof.
  revert st. induction keys as [|k keys IH]; intros [cols col].
  - cbn [fold_left fst]. split.
    + split; [auto|]. intros [H|[_ H]]; [exact H|inversion H].
    + intros Hlast c Hc. apply Hlast, Hc.
  - cbn [fold_left]. destruct (IH (buildColsStep h (cols, col) k)) as [IH1 IH2].
    unfold buildColsStep in *. cbn [fst] in *.
    destruct (Z.eqb_spec (Z.rem k 7) 6) as [Hr|Hr].
    + assert (Hk : 0 <= Z.quot k 7 /\ k = 7 * Z.quot k 7 + 6)
        by (apply week_of_saturday_key; auto).
      split.
      * rewrite IH1, elem_of_cons. cbn [fst].
        destruct (decide (Z.quot k 7 = w)) as [<-|Hne].
        -- rewrite lookup_insert_eq. split; [|eauto].
           intros _. right. split; [tauto|]. left. lia.
        -- rewrite lookup_insert_ne by exact Hne.
           split; [tauto|]. intros [H|[Hw [H|H]]]; [tauto| |tauto].
           exfalso. apply Hne. apply (week_of_saturday_key k w). auto.
      * intros Hlast. apply IH2. cbn [fst]. intros u c.
        destruct (decide (Z.quot k 7 = u)) as [<-|Hne].
        -- rewrite lookup_insert_eq. intros [= <-]. rewrite last_snoc.
           do 2 f_equal. lia.
        -- rewrite lookup_insert_ne by exact Hne. apply Hlast.
    + split.
      * rewrite IH1, elem_of_cons. cbn [fst]. split; [tauto|].
        intros [H|[Hw [H|H]]]; [tauto| |tauto].
        exfalso. apply Hr. apply (week_of_saturday_key k w). auto.
      * intros Hlast. apply IH2. exact Hlast.
Qed.

(** X17: [buildCols] stores a column for week [w] exactly when the key of
    the last day of that week, [7 w + 6], is among the keys; the keys of a
    week whose last day is missing are in no column of their own.  The last
    element of a stored column is the count of that last day. *)
Theorem buildCols_stored_weeks (keys : list Z) (commits : gmap Z Z) (w : Z) :
  (is_Some (buildCols keys commits !! w) <-> 0 <= w /\ 7 * w + 6 ∈ keys) /\
  (forall col : column,
     buildCols keys commits !! w = Some col ->
     last col = Some (mapGet commits (7 * w + 6))).
Proof.
  unfold buildCols. destruct (buildCols_fold_stored commits keys (∅, []) w) as [H1 H2].
  split.
  - rewrite H1. cbn [fst]. rewrite lookup_empty. split; [|auto].
    intros [[? [=]]|H]; exact H.
  - apply H2. cbn [fst]. intros u c. rewrite lookup_empty. discriminate.
Qed.

(** ** The order of the commits *)

Lemma mapIncr_comm (h : gmap Z Z) (a b : Z) :
  mapIncr (mapIncr h a) b = mapIncr (mapIncr h b) a.
Proof.
  destruct (decide (a = b)) as [->|Hne]; [reflexivity|].
  unfold mapIncr, mapGet. rewrite !lookup_insert_ne by congruence.
  apply insert_insert_ne. congruence.
Qed.

Lemma countCommit_comm (now : Time) (email : string) (offset : Z)
    (h : gmap Z Z) (a b : Commit) :
  countCommit now email offset (countCommit now email offset h a) b =
  countCommit now email offset (countCommit now email offset h b) a.
Proof.
  unfold countCommit. cbv zeta.
  destruct (negb (String.eqb (AuthorEmail a) email)),
    (negb (String.eqb (AuthorEmail b) email)); try reflexivity.
  destruct (negb (_ =? outOfRange)), (negb (_ =? outOfRange)); try reflexivity.
  apply mapIncr_comm.
Qed.

Lemma forEach_same_day (clock : nat -> Time) (now : Time) (email : string) (offset : Z)
    (cs : list Commit) (commits : gmap Z Z) (s : State) :
  (forall n, sameDay (clock n) now) ->
  forEach (forEachCommit clock email offset) cs commits s =
    (Ok (fold_left (countCommit now email offset) cs commits),
     mkState (ticks s + length cs) (stdout s)).
Proof.
  intros Hday. revert commits s. induction cs as [|c cs IH]; intros commits s.
  - simpl. rewrite Nat.add_0_r. destruct s; reflexivity.
  - cbn [forEach fold_left]. unfold bind at 1.
    assert (forEachCommit clock email offset commits c s =
            (Ok (countCommit now email offset commits c), tick s)) as ->.
    { unfold forEachCommit, countCommit, bind. rewrite countDaysSinceDate_value.
      rewrite (sameDay_boundaries _ _ _ (Hday _)). cbv zeta.
      destruct (negb (String.eqb _ _)); [reflexivity|].
      destruct (negb _); reflexivity. }
    rewrite IH. cbn [tick ticks stdout length]. do 2 f_equal. lia.
Qed.

(** X18: while the clock stays within one day, the order in which the
    iterator yields the commits of a repository makes no difference to the
    histogram. *)
Theorem forEach_order_irrelevant (clock : nat -> Time) (now : Time) (email : string)
    (offset : Z) (cs1 cs2 : list Commit) (commits : gmap Z Z) (s : State) :
  (forall n, sameDay (clock n) now) ->
  cs1 ≡ₚ cs2 ->
  forEach (forEachCommit clock email offset) cs1 commits s =
  forEach (forEachCommit clock email offset) cs2 commits s.
Proof.
  intros Hday Hperm. rewrite !(forEach_same_day clock now) by exact Hday.
  rewrite (Permutation_length Hperm). do 2 f_equal.
  revert commits. induction Hperm as [|c cs1 cs2 _ IH|a b cs|cs1 cs2 cs3 _ IH1 _ IH2];
    intros commits.
  - reflexivity.
  - cbn [fold_left]. apply IH.
  - cbn [fold_left]. rewrite countCommit_comm. reflexivity.
  - rewrite IH1. apply IH2.
Qed.

Lemma forEach_order_irrelevant_witness :
  forEach (forEachCommit (Examples.frozen Examples.saturdayNoon) Examples.me 1)
    [mkCommit Examples.me Examples.fridayNoon; mkCommit Examples.me Examples.saturdayNoon]
    ∅ Examples.s0 =
  forEach (forEachCommit (Examples.frozen Examples.saturdayNoon) Examples.me 1)
    [mkCommit Examples.me Examples.saturdayNoon; mkCommit Examples.me Examples.fridayNoon]
    ∅ Examples.s0.
Proof.
  apply (forEach_order_irrelevant _ Examples.saturdayNoon).
  - intros n. split; reflexivity.
  - apply perm_swap.
Defined.

(** ** A run that ends well *)







Lemma substring_monthName (m : Z) : String.length (substring 0 3 (monthName m)) = 3%nat.
Proof.
  destruct m as [|p|p]; try reflexivity.
  do 4 (try destruct p as [p|p|]; try reflexivity).
Qed.

(* the rounds of the loop of printMonths within a day: with the week [m]
   days from the start of today, the loop ends in round [r] when that round
   is the first to bring the week past today *)
Lemma printMonthsLoop_rounds (clock : nat -> Time) (now : Time) :
  (forall n, sameDay (clock n) now) ->
  forall (fuel : nat) (r : nat) (m month : Z) (s : State),
    (1 <= r <= fuel)%nat -> 1 <= m + 7 * Z.of_nat r <= 7 ->
    exists text : string,
      String.length text = (4 * r)%nat /\
      printMonthsLoop clock fuel (Add (getBeginningOfDay now) (m * day)) month s =
        (Ok tt, mkState (ticks s + r) (stdout s +:+ text)).
Proof.
  intros Hday fuel. induction fuel as [|fuel IH]; intros r m month s Hr Hm; [lia|].
  cbn [printMonthsLoop].
  set (label := if negb (Month (Add (getBeginningOfDay now) (m * day)) =? month)
                then (substring 0 3 (monthName (Month (Add (getBeginningOfDay now) (m * day))))
                      +:+ " ")%string
                else "    "%string).
  assert (Hlabel : String.length label = 4%nat).
  { unfold label. destruct (negb _); [|reflexivity].
    rewrite length_append, substring_monthName. reflexivity. }
  assert (Hfirst : exists month', forall (k : Z -> M unit) (s1 : State),
    bind (if negb (Month (Add (getBeginningOfDay now) (m * day)) =? month)
          then bind (printf (substring 0 3
                       (monthName (Month (Add (getBeginningOfDay now) (m * day)))) +:+ " "))
                 (fun _ => ret (Month (Add (getBeginningOfDay now) (m * day))))
          else bind (printf "    ") (fun _ => ret month)) k s1 =
    k month' (mkState (ticks s1) (stdout s1 +:+ label))).
  { unfold label. destruct (negb _); eexists; intros k s1; reflexivity. }
  destruct Hfirst as [month' ->]. rewrite timeNow_bind, Add_Add.
  replace (m * day + 7 * Hour * 24) with ((m + 7) * day) by (unfold day; lia).
  rewrite (After_same_day _ _ _ (Hday _)). unfold tick. cbn [ticks stdout].
  destruct (Z.leb_spec 1 (m + 7)) as [Hexit|Hmore].
  - assert (r = 1%nat) as -> by lia. exists label. split; [exact Hlabel|].
    unfold ret. do 2 f_equal. lia.
  - destruct (IH (r - 1)%nat (m + 7) month'
                (mkState (S (ticks s)) (stdout s +:+ label))) as [text [Hlen Hrun]];
      [lia|lia|].
    exists (label +:+ text)%string. split.
    + rewrite length_append, Hlabel, Hlen. lia.
    + rewrite Hrun. cbn [ticks stdout]. rewrite append_assoc. do 2 f_equal. lia.
Qed.

Lemma printMonths_within_day (clock : nat -> Time) (now : Time) (fuel : nat) (s : State) :
  (forall n, sameDay (clock n) now) ->
  (27 <= fuel)%nat ->
  exists row : string,
    String.length row = 117%nat /\
    String.length row = (5 + 28 * 4)%nat /\
    printMonths clock fuel s =
      (Ok tt, mkState (ticks s + 28) (stdout s +:+ row +:+ newline)).
Proof.
  intros Hday Hfuel. unfold printMonths. rewrite timeNow_bind. cbv zeta.
  rewrite (sameDay_beginning _ _ (Hday _)).
  replace (- (daysInLastSixMonths * Hour * 24)) with ((-183) * day) by reflexivity.
  unfold bind at 1. cbn [printf tick ticks stdout].
  destruct (printMonthsLoop_rounds clock now Hday fuel 27 (-183)
              (Month (Add (getBeginningOfDay now) (-183 * day)))
              (mkState (S (ticks s)) (stdout s +:+ "         ")))
    as [text [Hlen Hrun]]; [lia|lia|].
  exists ("         " +:+ text)%string. split; [|split].
  - rewrite length_append, Hlen. reflexivity.
  - rewrite length_append, Hlen. reflexivity.
  - unfold bind. rewrite Hrun. unfold printf. cbn [ticks stdout].
    rewrite !append_assoc. do 2 f_equal. lia.
Qed.

(** X19: while the clock stays within one day, [printMonths] reads it 28
    times and writes one line: nine blanks and 27 labels of four characters,
    117 characters in all, as wide as the five characters of the day column
    and 28 cells of four. *)
Theorem printMonths_row (clock : nat -> Time) (now : Time) (fuel : nat) (s : State) :
  (forall n, sameDay (clock n) now) ->
  (27 <= fuel)%nat ->
  exists row : string,
    String.length row = 117%nat /\
    String.length row = (5 + 28 * 4)%nat /\
    printMonths clock fuel s =
      (Ok tt, mkState (ticks s + 28) (stdout s +:+ row +:+ newline)).
Proof. exact (printMonths_within_day clock now fuel s). Qed.

Lemma printMonths_row_witness :
  exists row : string,
    String.length row = 117%nat /\
    String.length row = (5 + 28 * 4)%nat /\
    printMonths (Examples.anHourLater Examples.saturdayNoon) 30 Examples.s0 =
      (Ok tt, mkState (ticks Examples.s0 + 28) (stdout Examples.s0 +:+ row +:+ newline)).
Proof.
  apply (printMonths_row _ Examples.saturdayNoon).
  - intros [|n]; split; vm_compute; reflexivity.
  - lia.
Defined.




(** ** What a key counts *)




(** ** Sundays *)



